(** * Boulderbar capacity tracker: a shallow embedding of [app.py]

    The program polls a remote capacity API, stores one row per location
    and tick in a SQLite table and serves the table regrouped per location
    name.  The embedding follows the source function by function:

    - [Py]: the Python values that [response.json()] produces, the
      exceptions, and computations that change a state and may raise;
    - [DateTime]: aware UTC datetimes, [timedelta(hours=...)], subtraction
      and [isoformat()];
    - [Sqlite]: the [capacity] table, parameter binding, the INSERT with
      its constraints, the SELECT with its WHERE and ORDER BY, and the
      transaction of a [with] block;
    - [App]: [init_db], [fetch_and_store], [start_scheduler],
      [_ensure_scheduler_started] and [get_data].

    The statements follow: the grouping of rows into series, the order of
    the SELECT, one run of the collector, the store, the text order of
    ISO timestamps, the lookback, and the activation of the scheduler. *)

From Stdlib Require Import ZArith QArith List String Ascii Bool Lia.
From Stdlib Require Import Permutation Sorted.
Import ListNotations.

Local Open Scope string_scope.
Local Open Scope list_scope.
Local Open Scope Z_scope.

(* ================================================================== *)
(** ** Python values and exceptions *)

Module Py.

(** Exceptions the modelled code can raise.  All of them derive from
    Python's [Exception], which is what [fetch_and_store] catches. *)
Inductive exn : Type :=
| ConnectionError              (* requests: network failure *)
| Timeout                      (* requests: no answer within 10 s *)
| HTTPError (status_code : Z)  (* response.raise_for_status() *)
| JSONDecodeError              (* response.json() on a malformed body *)
| AttributeError               (* .get on a value that is not a dict *)
| KeyError (key : string)      (* d[key] on a dict without that key *)
| TypeError                    (* subscripting or iterating a wrong type *)
| OverflowError                (* integer or date out of range *)
| ProgrammingError             (* sqlite3: value of unsupported type *)
| IntegrityError               (* sqlite3: constraint violated *)
| OperationalError.            (* sqlite3: no such table *)

Inductive result (A : Type) : Type :=
| Ok (a : A)
| Raise (e : exn).
Arguments Ok {A} a.
Arguments Raise {A} e.

(** Computations over a state [S] that may raise: the state reached when
    the exception is raised is kept, as Python keeps it. *)
Definition M (S A : Type) : Type := S -> result A * S.

Definition ret {S A} (a : A) : M S A := fun s => (Ok a, s).

Definition raise {S A} (e : exn) : M S A := fun s => (Raise e, s).

Definition bind {S A B} (m : M S A) (k : A -> M S B) : M S B :=
  fun s =>
    match m s with
    | (Ok a, s') => k a s'
    | (Raise e, s') => (Raise e, s')
    end.

Definition lift {S A} (r : result A) : M S A := fun s => (r, s).

Definition gets {S A} (f : S -> A) : M S A := fun s => (Ok (f s), s).

Definition modify {S} (f : S -> S) : M S unit := fun s => (Ok tt, f s).

(** [try: body  except Exception as e: handler(e)]. *)
Definition try_except {S A} (body : M S A) (handler : exn -> M S A) : M S A :=
  fun s =>
    match body s with
    | (Ok a, s') => (Ok a, s')
    | (Raise e, s') => handler e s'
    end.

(** [for x in items: body(x)]. *)
Fixpoint for_each {S A} (items : list A) (body : A -> M S unit) : M S unit :=
  match items with
  | [] => ret tt
  | x :: rest => bind (body x) (fun _ => for_each rest body)
  end.

Notation "x <- m ;; k" := (bind m (fun x => k))
  (at level 61, m at next level, right associativity).
Notation "m ;;; k" := (bind m (fun _ => k))
  (at level 61, right associativity).

(** A Python [float]: not-a-number, an infinity, or a finite double,
    which is kept as the rational it denotes (the program only compares
    and stores floats, it never computes with them). *)
Inductive real : Type :=
| RInf (negative : bool)
| RFin (q : Q).

Inductive pyfloat : Type :=
| FNan
| FReal (r : real).

(** The value [response.json()] returns.  A JSON object becomes a dict,
    kept as the list of its items. *)
#[warnings="-register-all"]
Inductive json : Type :=
| JNull
| JBool (b : bool)
| JInt (z : Z)
| JFloat (f : pyfloat)
| JStr (s : string)
| JList (items : list json)
| JObj (fields : list (string * json)).

Fixpoint lookup {A} (key : string) (d : list (string * A)) : option A :=
  match d with
  | [] => None
  | (k, v) :: d' => if String.eqb k key then Some v else lookup key d'
  end.

(** [v.get(key)]: only a dict has the method; a missing key gives [None]. *)
Definition get (v : json) (key : string) : result json :=
  match v with
  | JObj fields =>
      match lookup key fields with
      | Some x => Ok x
      | None => Ok JNull
      end
  | _ => Raise AttributeError
  end.

(** [v[key]] with a string key. *)
Definition getitem (v : json) (key : string) : result json :=
  match v with
  | JObj fields =>
      match lookup key fields with
      | Some x => Ok x
      | None => Raise (KeyError key)
      end
  | _ => Raise TypeError
  end.

(** [v == 1].  Python compares numbers by value across [int], [float]
    and [bool] ([True == 1] and [1.0 == 1] hold); every other type is
    unequal to an integer. *)
Definition eq_one (v : json) : bool :=
  match v with
  | JInt z => z =? 1
  | JBool b => b
  | JFloat (FReal (RFin q)) => Qeq_bool q 1
  | _ => false
  end.

(** The items [for x in v] visits.  A dict yields its keys, a string its
    characters (here: its bytes, one-character strings either way). *)
Definition iter (v : json) : result (list json) :=
  match v with
  | JList items => Ok items
  | JObj fields => Ok (map (fun kv => JStr (fst kv)) fields)
  | JStr s => Ok (map (fun c => JStr (String c EmptyString)) (list_ascii_of_string s))
  | _ => Raise TypeError
  end.

End Py.

Import Py.

(* ================================================================== *)
(** ** Dates and times *)

Module DateTime.

(** An aware UTC [datetime] is the number of microseconds since
    0001-01-01T00:00:00+00:00; a [timedelta] is a number of microseconds. *)
Definition datetime := Z.
Definition timedelta := Z.

Definition US_PER_SECOND : Z := 1000000.
Definition US_PER_HOUR : Z := 3600 * US_PER_SECOND.
Definition US_PER_DAY : Z := 24 * US_PER_HOUR.

(** [datetime.max.toordinal()], the ordinal of 9999-12-31. *)
Definition MAX_ORDINAL : Z := 3652059.

(** [datetime.min <= t <= datetime.max]. *)
Definition representable (t : Z) : bool :=
  (0 <=? t) && (t <? MAX_ORDINAL * US_PER_DAY).

(** [timedelta(hours=h)]: the day count must have magnitude at most
    999999999. *)
Definition timedelta_hours (h : Z) : result timedelta :=
  let days := h / 24 in
  if (-999999999 <=? days) && (days <=? 999999999)
  then Ok (h * US_PER_HOUR)
  else Raise OverflowError.

(** [t - d]: "date value out of range" outside years 1..9999. *)
Definition sub (t : datetime) (d : timedelta) : result datetime :=
  if representable (t - d) then Ok (t - d) else Raise OverflowError.

Definition DAYS_IN_MONTH (month : Z) : Z :=
  match month with
  | 1 => 31 | 2 => 28 | 3 => 31 | 4 => 30 | 5 => 31 | 6 => 30
  | 7 => 31 | 8 => 31 | 9 => 30 | 10 => 31 | 11 => 30 | 12 => 31
  | _ => 0
  end.

Definition DAYS_BEFORE_MONTH (month : Z) : Z :=
  match month with
  | 1 => 0 | 2 => 31 | 3 => 59 | 4 => 90 | 5 => 120 | 6 => 151
  | 7 => 181 | 8 => 212 | 9 => 243 | 10 => 273 | 11 => 304 | 12 => 334
  | _ => 0
  end.

Definition is_leap (year : Z) : bool :=
  (year mod 4 =? 0) && (negb (year mod 100 =? 0) || (year mod 400 =? 0)).

Definition days_before_year (year : Z) : Z :=
  let y := year - 1 in y * 365 + y / 4 - y / 100 + y / 400.

(** Ordinal of a calendar date, 0001-01-01 being day 1. *)
Definition ymd2ord (year month day : Z) : Z :=
  days_before_year year + DAYS_BEFORE_MONTH month
  + (if (2 <? month) && is_leap year then 1 else 0) + day.

(** The month and the day of the [n]-th day of a year, counted from 0:
    an estimate of the month that is exact or one too large, then the
    correction. *)
Definition month_day (n : Z) (leapyear : bool) : Z * Z :=
  let month := Z.shiftr (n + 50) 5 in
  let preceding :=
    DAYS_BEFORE_MONTH month + (if (2 <? month) && leapyear then 1 else 0) in
  if n <? preceding then
    let month := month - 1 in
    let preceding :=
      preceding
      - (DAYS_IN_MONTH month + (if (month =? 2) && leapyear then 1 else 0)) in
    (month, n - preceding + 1)
  else (month, n - preceding + 1).

(** The calendar date of an ordinal, by 400-, 100-, 4- and 1-year cycles. *)
Definition ord2ymd (ordinal : Z) : Z * Z * Z :=
  let n := ordinal - 1 in
  let n400 := n / 146097 in
  let n := n mod 146097 in
  let n100 := n / 36524 in
  let n := n mod 36524 in
  let n4 := n / 1461 in
  let n := n mod 1461 in
  let n1 := n / 365 in
  let n := n mod 365 in
  let year := n400 * 400 + 1 + n100 * 100 + n4 * 4 + n1 in
  if (n1 =? 4) || (n100 =? 4) then (year - 1, 12, 31)
  else
    let leapyear := (n1 =? 3) && (negb (n4 =? 24) || (n100 =? 3)) in
    (year, fst (month_day n leapyear), snd (month_day n leapyear)).

Definition digit (d : Z) : ascii :=
  ascii_of_nat (48 + Z.to_nat (d mod 10)).

(** [width] decimal digits of [n], zero padded. *)
Fixpoint digits (width : nat) (n : Z) : string :=
  match width with
  | O => EmptyString
  | S w => (digits w (n / 10) ++ String (digit n) EmptyString)%string
  end.

(** [t.isoformat()] for an aware UTC datetime: the fraction is printed
    only when the microsecond field is not zero. *)
Definition isoformat (t : datetime) : string :=
  let '(year, month, day) := ord2ymd (t / US_PER_DAY + 1) in
  let us_of_day := t mod US_PER_DAY in
  let hour := us_of_day / US_PER_HOUR in
  let minute := (us_of_day / (60 * US_PER_SECOND)) mod 60 in
  let second := (us_of_day / US_PER_SECOND) mod 60 in
  let microsecond := us_of_day mod US_PER_SECOND in
  (digits 4 year ++ "-" ++ digits 2 month ++ "-" ++ digits 2 day ++ "T"
   ++ digits 2 hour ++ ":" ++ digits 2 minute ++ ":" ++ digits 2 second
   ++ (if (microsecond =? 0)%Z then "" else "." ++ digits 6 microsecond)
   ++ "+00:00")%string.

(** The datetime of a calendar date and a time of day. *)
Definition make (year month day hour minute second microsecond : Z) : datetime :=
  (ymd2ord year month day - 1) * US_PER_DAY
  + hour * US_PER_HOUR + minute * 60 * US_PER_SECOND
  + second * US_PER_SECOND + microsecond.

End DateTime.


(* ================================================================== *)
(** ** The SQLite table *)

Module Sqlite.

(** A stored value that is not NULL; NULL is [None] of [option sqlval]. *)
Inductive sqlval : Type :=
| SInt (z : Z)
| SReal (r : real)
| SText (s : string).

Definition INT64_MIN : Z := -9223372036854775808.
Definition INT64_MAX : Z := 9223372036854775807.

(** How the [sqlite3] module binds a Python value to a [?] placeholder:
    [None] and a not-a-number are NULL, a [bool] is an integer, an [int]
    must fit 64 bits, lists and dicts are not supported
    (ProgrammingError; InterfaceError before Python 3.11). *)
Definition bind_param (v : json) : result (option sqlval) :=
  match v with
  | JNull => Ok None
  | JBool b => Ok (Some (SInt (if b then 1 else 0)))
  | JInt z =>
      if (INT64_MIN <=? z) && (z <=? INT64_MAX)
      then Ok (Some (SInt z)) else Raise OverflowError
  | JFloat FNan => Ok None
  | JFloat (FReal r) => Ok (Some (SReal r))
  | JStr s => Ok (Some (SText s))
  | JList _ => Raise ProgrammingError
  | JObj _ => Raise ProgrammingError
  end.

(** SQLite's conversions of a value whose storage class differs from the
    column's affinity: a REAL or TEXT stored in an INTEGER column, and a
    number stored in a TEXT column.  They are the engine's, not the
    program's, and are left open. *)
Record conversions : Type := {
  numeric_of : sqlval -> sqlval;
  text_of : sqlval -> string
}.

Definition integer_affinity (cv : conversions) (v : sqlval) : sqlval :=
  match v with
  | SInt _ => v
  | _ => numeric_of cv v
  end.

Definition text_affinity (cv : conversions) (v : sqlval) : string :=
  match v with
  | SText s => s
  | _ => text_of cv v
  end.

(** Comparison of stored values: numbers by value, before any text; text
    by its bytes (the BINARY collation). *)
Definition real_leb (a b : real) : bool :=
  match a, b with
  | RInf true, _ => true
  | _, RInf false => true
  | RFin p, RFin q => Qle_bool p q
  | _, _ => false
  end.

Definition sql_leb (a b : sqlval) : bool :=
  match a, b with
  | SText s, SText t => String.leb s t
  | SText _, _ => false
  | SInt _, SText _ => true
  | SReal _, SText _ => true
  | SInt x, SInt y => x <=? y
  | SInt x, SReal r => real_leb (RFin (inject_Z x)) r
  | SReal r, SInt y => real_leb r (RFin (inject_Z y))
  | SReal r, SReal r' => real_leb r r'
  end.

Definition sql_eqb (a b : sqlval) : bool := sql_leb a b && sql_leb b a.

(** A row of
    [capacity (timestamp TEXT NOT NULL, location_id INTEGER NOT NULL,
               location_name TEXT NOT NULL, capacity INTEGER NOT NULL,
               PRIMARY KEY (timestamp, location_id))]. *)
Record Row : Type := {
  timestamp : string;
  location_id : sqlval;
  location_name : string;
  capacity : sqlval
}.

(** Equality on the primary key. *)
Definition same_key (r1 r2 : Row) : bool :=
  String.eqb (timestamp r1) (timestamp r2)
  && sql_eqb (location_id r1) (location_id r2).

(** [ORDER BY timestamp, location_id]. *)
Definition row_leb (r1 r2 : Row) : bool :=
  match String.compare (timestamp r1) (timestamp r2) with
  | Lt => true
  | Eq => sql_leb (location_id r1) (location_id r2)
  | Gt => false
  end.

Fixpoint insert_sorted (r : Row) (l : list Row) : list Row :=
  match l with
  | [] => [r]
  | x :: l' => if row_leb r x then r :: l else x :: insert_sorted r l'
  end.

Definition order_by (rows : list Row) : list Row :=
  fold_right insert_sorted [] rows.

(** The database file: the table, when it exists, with its rows in
    insertion order, and whether the secondary index exists. *)
Record Database : Type := {
  capacity_table : option (list Row);
  idx_capacity_location_timestamp : bool
}.

Definition with_rows (rows : list Row) (d : Database) : Database :=
  {| capacity_table := Some rows;
     idx_capacity_location_timestamp := idx_capacity_location_timestamp d |}.

(** A connection: what is committed to the file, and what the open
    transaction sees. *)
Record connection : Type := {
  committed : Database;
  pending : Database
}.

Definition connect (d : Database) : connection :=
  {| committed := d; pending := d |}.

Definition commit : M connection unit :=
  modify (fun c => {| committed := pending c; pending := pending c |}).

Definition rollback : M connection unit :=
  modify (fun c => {| committed := committed c; pending := committed c |}).

(** [with sqlite3.connect(DB_PATH) as conn: body]: the context manager
    commits when the body ends normally and rolls back when it raises,
    and the exception goes on. *)
Definition with_connection {A} (body : M connection A) : M Database A :=
  fun d =>
    match body (connect d) with
    | (Ok a, c) => (Ok a, committed (snd (commit c)))
    | (Raise e, c) => (Raise e, committed (snd (rollback c)))
    end.

(** [CREATE TABLE IF NOT EXISTS capacity (...)]. *)
Definition create_table_if_not_exists : M connection unit :=
  modify (fun c =>
    {| committed := committed c;
       pending :=
         match capacity_table (pending c) with
         | Some _ => pending c
         | None =>
             {| capacity_table := Some [];
                idx_capacity_location_timestamp :=
                  idx_capacity_location_timestamp (pending c) |}
         end |}).

(** [CREATE INDEX IF NOT EXISTS idx_capacity_location_timestamp ...]. *)
Definition create_index_if_not_exists : M connection unit :=
  fun c =>
    match capacity_table (pending c) with
    | None => (Raise OperationalError, c)
    | Some rows =>
        (Ok tt,
         {| committed := committed c;
            pending := {| capacity_table := Some rows;
                          idx_capacity_location_timestamp := true |} |})
    end.

(** The row an INSERT stores for its four bound values, after the NOT
    NULL checks and the column affinities. *)
Definition new_row (cv : conversions) (ts : string)
    (id name cap : option sqlval) : result Row :=
  match id, name, cap with
  | Some id, Some name, Some cap =>
      Ok {| timestamp := ts;
            location_id := integer_affinity cv id;
            location_name := text_affinity cv name;
            capacity := integer_affinity cv cap |}
  | _, _, _ => Raise IntegrityError
  end.

(** Preparing a statement on [capacity]: "no such table" when the table
    does not exist; otherwise the rows the open transaction sees. *)
Definition prepare : M connection (list Row) :=
  fun c =>
    match capacity_table (pending c) with
    | None => (Raise OperationalError, c)
    | Some rows => (Ok rows, c)
    end.

(** Adding a row to the open transaction, under the primary key.  A
    statement that fails changes nothing. *)
Definition insert_row (r : Row) : M connection unit :=
  rows <- prepare ;;
  if existsb (same_key r) rows then raise IntegrityError
  else modify (fun c =>
         {| committed := committed c;
            pending := with_rows (rows ++ [r]) (pending c) |}).

(** [conn.execute("INSERT INTO capacity (timestamp, location_id,
    location_name, capacity) VALUES (?, ?, ?, ?)", (ts, id, name, cap))]:
    the statement is prepared, the values are bound in order, the row is
    checked and added. *)
Definition execute_insert (cv : conversions) (ts : string)
    (id name cap : json) : M connection unit :=
  prepare ;;;
  id' <- lift (bind_param id) ;;
  name' <- lift (bind_param name) ;;
  cap' <- lift (bind_param cap) ;;
  r <- lift (new_row cv ts id' name' cap') ;;
  insert_row r.

(** The two shapes of the query text that [get_data] builds. *)
Inductive where_clause : Type :=
| NoWhere                 (* "" *)
| WhereTimestampGe.       (* "WHERE timestamp >= ?" *)

(** [conn.execute("SELECT timestamp, location_id, location_name, capacity
    FROM capacity {where_clause} ORDER BY timestamp, location_id",
    params).fetchall()]. *)
Definition execute_select (w : where_clause) (params : list string)
  : M connection (list Row) :=
  rows <- prepare ;;
  match w, params with
  | NoWhere, [] => ret (order_by rows)
  | WhereTimestampGe, [since] =>
      ret (order_by (filter (fun r => String.leb since (timestamp r)) rows))
  | _, _ => raise ProgrammingError
  end.

End Sqlite.

Import Sqlite.

(* ================================================================== *)
(** ** The application *)

Module App.

Import DateTime.

(** What [requests.get(API_URL, timeout=10)] meets: the call raises (no
    connection, timeout, ...) or hands back the final response, whose
    body [response.json()] parses, or fails to ([None]). *)
Record response : Type := {
  status_code : Z;
  body : option json
}.

Inductive outcome : Type :=
| Raises (e : exn)
| Responds (r : response).

(** The surroundings of the process: the remote API (its answer to the
    n-th request), the system clock (its n-th reading) and the SQLite
    engine's value conversions. *)
Record Env : Type := {
  remote : nat -> outcome;
  utcnow : nat -> datetime;
  sqlite : conversions
}.

(** The state the program acts on: the database file at [DB_PATH], the
    module globals [scheduler] and [scheduler_started], what was printed,
    and how often the remote API and the clock were consulted. *)
Record World : Type := {
  db : Database;
  requests_sent : nat;
  clock_reads : nat;
  stdout : list exn;
  scheduler_running : bool;
  scheduler_jobs : nat;
  scheduler_started : bool
}.

Definition set_db (d : Database) (w : World) : World :=
  {| db := d; requests_sent := requests_sent w; clock_reads := clock_reads w;
     stdout := stdout w; scheduler_running := scheduler_running w;
     scheduler_jobs := scheduler_jobs w;
     scheduler_started := scheduler_started w |}.

Definition set_requests_sent (n : nat) (w : World) : World :=
  {| db := db w; requests_sent := n; clock_reads := clock_reads w;
     stdout := stdout w; scheduler_running := scheduler_running w;
     scheduler_jobs := scheduler_jobs w;
     scheduler_started := scheduler_started w |}.

Definition set_clock_reads (n : nat) (w : World) : World :=
  {| db := db w; requests_sent := requests_sent w; clock_reads := n;
     stdout := stdout w; scheduler_running := scheduler_running w;
     scheduler_jobs := scheduler_jobs w;
     scheduler_started := scheduler_started w |}.

Definition set_stdout (out : list exn) (w : World) : World :=
  {| db := db w; requests_sent := requests_sent w; clock_reads := clock_reads w;
     stdout := out; scheduler_running := scheduler_running w;
     scheduler_jobs := scheduler_jobs w;
     scheduler_started := scheduler_started w |}.

Definition set_scheduler_running (b : bool) (w : World) : World :=
  {| db := db w; requests_sent := requests_sent w; clock_reads := clock_reads w;
     stdout := stdout w; scheduler_running := b;
     scheduler_jobs := scheduler_jobs w;
     scheduler_started := scheduler_started w |}.

Definition set_scheduler_jobs (n : nat) (w : World) : World :=
  {| db := db w; requests_sent := requests_sent w; clock_reads := clock_reads w;
     stdout := stdout w; scheduler_running := scheduler_running w;
     scheduler_jobs := n;
     scheduler_started := scheduler_started w |}.

Definition set_scheduler_started (b : bool) (w : World) : World :=
  {| db := db w; requests_sent := requests_sent w; clock_reads := clock_reads w;
     stdout := stdout w; scheduler_running := scheduler_running w;
     scheduler_jobs := scheduler_jobs w;
     scheduler_started := b |}.

(** A block run on the database file. *)
Definition on_db {A} (m : M Database A) : M World A :=
  fun w => let (r, d) := m (db w) in (r, set_db d w).

(** [requests.get(API_URL, timeout=10)]. *)
Definition requests_get (env : Env) : M World response :=
  fun w =>
    match remote env (requests_sent w) with
    | Raises e => (Raise e, set_requests_sent (S (requests_sent w)) w)
    | Responds r => (Ok r, set_requests_sent (S (requests_sent w)) w)
    end.

(** [response.raise_for_status()]: HTTPError for a 4xx or 5xx status. *)
Definition raise_for_status (r : response) : M World unit :=
  if (400 <=? status_code r) && (status_code r <? 600)
  then raise (HTTPError (status_code r))
  else ret tt.

(** [response.json()]. *)
Definition response_json (r : response) : M World json :=
  match body r with
  | Some v => ret v
  | None => raise JSONDecodeError
  end.

(** [datetime.now(timezone.utc)]: one more reading of the clock. *)
Definition datetime_now (env : Env) : M World datetime :=
  fun w =>
    (Ok (utcnow env (clock_reads w)), set_clock_reads (S (clock_reads w)) w).

(** [print(f"Error fetching data: {e}")]. *)
Definition print_error (e : exn) : M World unit :=
  modify (fun w => set_stdout (stdout w ++ [e]) w).

(** [init_db], lines 25-40. *)
Definition init_db : M World unit :=
  on_db (with_connection (
    create_table_if_not_exists ;;;
    create_index_if_not_exists ;;;
    commit)).

(** The body of the loop of [fetch_and_store], lines 54-58. *)
Definition insert_location (env : Env) (timestamp : string) (location : json)
  : M connection unit :=
  id <- lift (getitem location "id") ;;
  title <- lift (getitem location "title") ;;
  cap <- lift (getitem location "capacity") ;;
  execute_insert (sqlite env) timestamp id title cap.

(** The [with] block of [fetch_and_store], lines 52-59. *)
Definition store_samples (env : Env) (timestamp : string) (data : json)
  : M World unit :=
  on_db (with_connection (
    locations <- lift (getitem data "data") ;;
    locations <- lift (iter locations) ;;
    for_each locations (insert_location env timestamp) ;;;
    commit)).

(** The [try] block of [fetch_and_store], lines 46-59. *)
Definition fetch_and_store_try (env : Env) : M World unit :=
  response <- requests_get env ;;
  raise_for_status response ;;;
  data <- response_json response ;;
  status <- lift (get data "status") ;;
  if eq_one status then
    now <- datetime_now env ;;
    let timestamp := isoformat now in
    store_samples env timestamp data
  else ret tt.

(** [fetch_and_store], lines 43-61. *)
Definition fetch_and_store (env : Env) : M World unit :=
  try_except (fetch_and_store_try env) print_error.

(** [scheduler.add_job(func=fetch_and_store, trigger="interval",
    minutes=5)]: one more armed timer. *)
Definition scheduler_add_job : M World unit :=
  modify (fun w => set_scheduler_jobs (S (scheduler_jobs w)) w).

(** [scheduler.start()]. *)
Definition scheduler_start : M World unit :=
  modify (set_scheduler_running true).

(** [start_scheduler], lines 64-70. *)
Definition start_scheduler (env : Env) : M World unit :=
  init_db ;;;
  fetch_and_store env ;;;
  running <- gets scheduler_running ;;
  if negb running then
    scheduler_add_job ;;;
    scheduler_start
  else ret tt.

(** [_ensure_scheduler_started], lines 73-82, which Flask runs before
    every request.  One thread at a time: taking [scheduler_lock] does
    nothing, the second test of the flag repeats the first. *)
Definition _ensure_scheduler_started (env : Env) : M World unit :=
  started <- gets scheduler_started ;;
  if started then ret tt
  else
    started <- gets scheduler_started ;;
    if started then ret tt
    else
      start_scheduler env ;;;
      modify (set_scheduler_started true).

(** [scheduler.shutdown(wait=False)]: the scheduler stops and its job
    store, which is in memory, is emptied. *)
Definition scheduler_shutdown : M World unit :=
  modify (fun w => set_scheduler_jobs 0 (set_scheduler_running false w)).

(** [_shutdown_scheduler], lines 85-87, registered with [atexit]. *)
Definition _shutdown_scheduler : M World unit :=
  running <- gets scheduler_running ;;
  if running then scheduler_shutdown else ret tt.

(** One firing of the interval trigger: each armed job runs
    [fetch_and_store]. *)
Definition interval_elapsed (env : Env) : M World unit :=
  fun w =>
    if scheduler_running w
    then for_each (repeat tt (scheduler_jobs w)) (fun _ => fetch_and_store env) w
    else (Ok tt, w).

(** The [hours] argument of the query string, as [int()] sees it. *)
Inductive hours_param : Type :=
| Absent                  (* no [hours] argument: the default "24" *)
| IntLiteral (z : Z)      (* [int(hours_param)] returns [z] *)
| NotAnInt.               (* [int(hours_param)] raises ValueError *)

(** Lines 102-106. *)
Definition parse_hours (p : hours_param) : Z :=
  match p with
  | Absent => 24
  | IntLiteral z => z
  | NotAnInt => 24
  end.

(** One series of the answer: [{"timestamps": [...], "capacities": [...]}]. *)
Record series : Type := {
  timestamps : list string;
  capacities : list sqlval
}.

(** The dict [data] of [get_data]: its items in insertion order. *)
Definition dict : Type := list (string * series).

Definition contains (key : string) (d : dict) : bool :=
  existsb (fun kv => String.eqb (fst kv) key) d.

(** [d[key] = v] for a key that is not in [d]. *)
Definition add (key : string) (v : series) (d : dict) : dict := d ++ [(key, v)].

(** In-place change of the value stored at [key]. *)
Fixpoint update (key : string) (f : series -> series) (d : dict) : dict :=
  match d with
  | [] => []
  | (k, v) :: d' =>
      if String.eqb k key then (k, f v) :: d' else (k, v) :: update key f d'
  end.

(** The body of the loop of [get_data], lines 126-129. *)
Definition group_row (data : dict) (row : Row) : dict :=
  let loc_name := location_name row in
  let data :=
    if negb (contains loc_name data)
    then add loc_name {| timestamps := []; capacities := [] |} data
    else data in
  let data :=
    update loc_name
      (fun s => {| timestamps := timestamps s ++ [timestamp row];
                   capacities := capacities s |}) data in
  update loc_name
    (fun s => {| timestamps := timestamps s;
                 capacities := capacities s ++ [capacity row] |}) data.

(** Lines 124-129. *)
Definition group_rows (rows : list Row) : dict :=
  fold_left group_row rows [].

(** Lines 108-122: the rows the SELECT returns. *)
Definition query_rows (env : Env) (hours : Z) : M World (list Row) :=
  params <-
    (if 0 <? hours then
       now <- datetime_now env ;;
       delta <- lift (timedelta_hours hours) ;;
       since <- lift (sub now delta) ;;
       ret (WhereTimestampGe, [isoformat since])
     else ret (NoWhere, [])) ;;
  on_db (with_connection (execute_select (fst params) (snd params))).

(** [get_data], lines 99-131.  [Ok data] stands for the 200 answer
    [jsonify(data)]; an exception becomes Flask's 500 answer. *)
Definition get_data (env : Env) (p : hours_param) : M World dict :=
  let hours := parse_hours p in
  rows <- query_rows env hours ;;
  ret (group_rows rows).

(** A request for [/api/data]: the [before_request] hook, then the view. *)
Definition serve_api_data (env : Env) (p : hours_param) : M World dict :=
  _ensure_scheduler_started env ;;;
  get_data env p.

(** What a view returns: the page of [index], rendered from a template
    that is not part of the program, or the data of [get_data]. *)
Inductive reply : Type :=
| Page
| Data (d : dict).

(** [index], lines 93-96. *)
Definition index : M World reply := ret Page.

(** The requests the application routes. *)
Inductive request : Type :=
| GetIndex                      (* GET / *)
| GetData (p : hours_param).    (* GET /api/data *)

(** Flask serving a request: the [before_request] hook, then the view of
    the route.  An exception becomes the 500 answer. *)
Definition serve (env : Env) (r : request) : M World reply :=
  _ensure_scheduler_started env ;;;
  match r with
  | GetIndex => index
  | GetData p => d <- get_data env p ;; ret (Data d)
  end.

(** What happens to a running process: the interval trigger fires, or a
    request arrives. *)
Inductive event : Type :=
| Tick
| Request (r : request).

(** The state after an event; an answer, or an error answer, is sent
    and the process goes on. *)
Definition handle (env : Env) (w : World) (ev : event) : World :=
  match ev with
  | Tick => snd (interval_elapsed env w)
  | Request r => snd (serve env r w)
  end.

Definition run (env : Env) (events : list event) (w : World) : World :=
  fold_left (handle env) events w.

(** A fresh process on a given database file. *)
Definition boot (d : Database) : World :=
  {| db := d; requests_sent := 0; clock_reads := 0; stdout := [];
     scheduler_running := false; scheduler_jobs := 0;
     scheduler_started := false |}.

Definition no_database : Database :=
  {| capacity_table := None; idx_capacity_location_timestamp := false |}.

(** The program run as a script, lines 134-136: the scheduler is started
    eagerly, then the server handles what comes. *)
Definition main (env : Env) (events : list event) (d : Database) : World :=
  run env events (snd (start_scheduler env (boot d))).

(** The module imported by a server: nothing runs until the first
    request. *)
Definition imported (env : Env) (events : list event) (d : Database) : World :=
  run env events (boot d).

End App.

Import App.

(* ================================================================== *)
(** ** Concrete scenarios *)

Module Scenario.

(** SQLite conversions for the scenarios, whose values all have the
    storage class of their column: the conversions are never reached. *)
Definition no_conversion : conversions :=
  {| numeric_of := fun v => v; text_of := fun _ => EmptyString |}.

(** An entry of the [data] array in the documented shape. *)
Definition location (id : Z) (title : string) (cap : Z) : json :=
  JObj [("id", JInt id); ("title", JStr title); ("capacity", JInt cap)].

(** The documented answer [{"status": ..., "data": [...]}]. *)
Definition answer (code : Z) (status : json) (locations : list json) : outcome :=
  Responds {| status_code := code;
              body := Some (JObj [("status", status); ("data", JList locations)]) |}.

(** A clock that starts on 2026-11-03T10:00:00 UTC and is five minutes
    further at every reading. *)
Definition clock (n : nat) : DateTime.datetime :=
  DateTime.make 2026 11 3 10 0 0 0
  + Z.of_nat n * 5 * 60 * DateTime.US_PER_SECOND.

Definition env_of (o : outcome) : Env :=
  {| remote := fun _ => o; utcnow := clock; sqlite := no_conversion |}.

(** A process whose database holds the empty table and the index. *)
Definition initialised : World :=
  boot {| capacity_table := Some []; idx_capacity_location_timestamp := true |}.

(** Two entries with the same [id]: the second INSERT violates the
    primary key. *)
Definition duplicate_ids : list json :=
  [location 260 "Hannovergasse" 10; location 260 "Wienerberg" 5].

Definition one_location : list json := [location 260 "Hannovergasse" 10].

Definition one_row : Row :=
  {| timestamp := "2026-11-03T10:00:00+00:00"; location_id := SInt 260;
     location_name := "Hannovergasse"; capacity := SInt 10 |}.

(** The API as documented: status 1 and one location. *)
Definition healthy : Env := env_of (answer 200 (JInt 1) one_location).

(** A process whose table holds one sample, taken at 10:00. *)
Definition one_stored : World :=
  boot {| capacity_table := Some [one_row];
          idx_capacity_location_timestamp := true |}.

(** The process after one tick on the empty table. *)
Definition after_one_tick : World :=
  {| db := {| capacity_table := Some [one_row];
              idx_capacity_location_timestamp := true |};
     requests_sent := 1; clock_reads := 1; stdout := [];
     scheduler_running := false; scheduler_jobs := 0;
     scheduler_started := false |}.

(** Two entries, the higher id first. *)
Definition two_locations : list json :=
  [location 261 "Wienerberg" 5; location 260 "Hannovergasse" 10].

(** The API as documented, with the two entries. *)
Definition busy : Env := env_of (answer 200 (JInt 1) two_locations).

Definition sample (ts : string) (id : Z) (name : string) (cap : Z) : Row :=
  {| timestamp := ts; location_id := SInt id;
     location_name := name; capacity := SInt cap |}.

(** A process that finds the rows of an earlier day's run and of two
    runs of today, at 10:00 and at 10:05, each in the order of the
    entries of the API. *)
Definition history : World :=
  {| db := {| capacity_table :=
                Some [ sample "2026-11-02T08:00:00+00:00" 260 "Hannovergasse" 3;
                       sample "2026-11-03T10:00:00+00:00" 261 "Wienerberg" 5;
                       sample "2026-11-03T10:00:00+00:00" 260 "Hannovergasse" 10;
                       sample "2026-11-03T10:05:00+00:00" 261 "Wienerberg" 7;
                       sample "2026-11-03T10:05:00+00:00" 260 "Hannovergasse" 12 ];
              idx_capacity_location_timestamp := true |};
     requests_sent := 2; clock_reads := 2; stdout := [];
     scheduler_running := true; scheduler_jobs := 1;
     scheduler_started := true |}.

(** A request for the data of the last day, a tick, a request for the
    page. *)
Definition some_events : list event :=
  [Request (GetData Absent); Tick; Request GetIndex].

End Scenario.

(* ================================================================== *)
(** ** Vocabulary of the statements *)

(** The rows that carry a given location name. *)
Definition named (name : string) (r : Row) : bool :=
  String.eqb (location_name r) name.

(** The series a name should get: the timestamps and the capacities of
    its rows, in row order. *)
Definition series_of (name : string) (rows : list Row) : series :=
  {| timestamps := map timestamp (filter (named name) rows);
     capacities := map capacity (filter (named name) rows) |}.

(** The distinct elements of a list, each at its first occurrence. *)
Fixpoint first_seen (l : list string) : list string :=
  match l with
  | [] => []
  | x :: l' => x :: remove string_dec x (first_seen l')
  end.

(** The dict that maps each key of [ks], in that order, to [F k]. *)
Definition table (F : string -> series) (ks : list string) : dict :=
  map (fun k => (k, F k)) ks.

(** [a] is not after [b] in the order of the SELECT. *)
Definition row_le (a b : Row) : Prop := row_leb a b = true.

(** The rows of the table, none when there is no table. *)
Definition rows_of (d : Database) : list Row :=
  match capacity_table d with
  | Some rows => rows
  | None => []
  end.

(** The timestamp of the run of [fetch_and_store] that starts in [w]:
    the next reading of the clock, in ISO format. *)
Definition tick_timestamp (env : Env) (w : World) : string :=
  DateTime.isoformat (utcnow env (clock_reads w)).

(** The state after the request was sent. *)
Definition requested (w : World) : World :=
  set_requests_sent (S (requests_sent w)) w.

(** The row built from an entry of the [data] array: its [id], [title]
    and [capacity], bound and stored under the given timestamp. *)
Definition sample_of (env : Env) (ts : string) (location : json) (r : Row)
  : Prop :=
  exists id title cap idv titlev capv,
    getitem location "id" = Ok id /\
    getitem location "title" = Ok title /\
    getitem location "capacity" = Ok cap /\
    bind_param id = Ok (Some idv) /\
    bind_param title = Ok (Some titlev) /\
    bind_param cap = Ok (Some capv) /\
    r = {| timestamp := ts;
           location_id := integer_affinity (sqlite env) idv;
           location_name := text_affinity (sqlite env) titlev;
           capacity := integer_affinity (sqlite env) capv |}.

(** The API answers the request sent in [w] with a status that
    [raise_for_status] lets pass and with the JSON object [fields]. *)
Definition answers (env : Env) (w : World) (fields : list (string * json))
  : Prop :=
  exists code,
    remote env (requests_sent w)
    = Responds {| status_code := code; body := Some (JObj fields) |}
    /\ (code < 400 \/ 600 <= code).

(** The run that starts in [w] reaches the INSERT loop, with the entries
    [locations] to insert. *)
Definition reaches_loop (env : Env) (w : World) (locations : list json)
  : Prop :=
  exists fields status,
    answers env w fields /\
    lookup "status" fields = Some status /\
    eq_one status = true /\
    lookup "data" fields = Some (JList locations).

(** In that run the first [k] entries are inserted and the insertion of
    the next one raises [e]. *)
Definition insertion_fails (env : Env) (w : World) (locations : list json)
    (k : nat) (e : exn) : Prop :=
  exists location c c',
    for_each (firstn k locations)
      (insert_location env (tick_timestamp env w)) (connect (db w))
    = (Ok tt, c) /\
    nth_error locations k = Some location /\
    insert_location env (tick_timestamp env w) location c = (Raise e, c').

(** The exception with which fetching fails, if it does: the request
    raises, the status is 4xx or 5xx, or the body is not JSON. *)
Definition fetch_error (o : outcome) : option exn :=
  match o with
  | Raises e => Some e
  | Responds r =>
      if (400 <=? status_code r) && (status_code r <? 600)
      then Some (HTTPError (status_code r))
      else match body r with
           | None => Some JSONDecodeError
           | Some _ => None
           end
  end.

(** The database once a batch of rows is added to the table. *)
Definition store (batch : list Row) (d : Database) : Database :=
  match batch with
  | [] => d
  | _ :: _ => with_rows (rows_of d ++ batch) d
  end.

(** [data.get("status")] on a dict. *)
Definition status_of (fields : list (string * json)) : json :=
  match lookup "status" fields with
  | Some status => status
  | None => JNull
  end.

(** The instant [now - timedelta(hours=hours)] of line 113, for the
    reading of the clock that a query makes in [w]. *)
Definition lower_bound (env : Env) (hours : Z) (w : World)
  : DateTime.datetime :=
  utcnow env (clock_reads w) - hours * DateTime.US_PER_HOUR.

(** The query for [hours] made in [w] has no lower bound, or a lower
    bound that is a datetime earlier than the instant [t]. *)
Definition bound_before (env : Env) (hours : Z) (w : World)
    (t : DateTime.datetime) : Prop :=
  hours <= 0
  \/ (0 < hours
      /\ DateTime.representable (utcnow env (clock_reads w)) = true
      /\ DateTime.representable (lower_bound env hours w) = true
      /\ DateTime.representable t = true
      /\ lower_bound env hours w < t).

(** No two rows of the list agree on (timestamp, location_id). *)
Fixpoint distinct_keys (rows : list Row) : bool :=
  match rows with
  | [] => true
  | r :: rest => negb (existsb (same_key r) rest) && distinct_keys rest
  end.

(** A row with its location id replaced. *)
Definition with_location_id (f : Row -> sqlval) (r : Row) : Row :=
  {| timestamp := timestamp r; location_id := f r;
     location_name := location_name r; capacity := capacity r |}.

(** The state after one more reading of the clock. *)
Definition clock_read (w : World) : World :=
  set_clock_reads (S (clock_reads w)) w.

(** The database once [init_db] has run on it. *)
Definition initialise (d : Database) : Database :=
  {| capacity_table := Some (rows_of d);
     idx_capacity_location_timestamp := true |}.

(** The number of days of a month. *)
Definition days_in_month (year month : Z) : Z :=
  DateTime.DAYS_IN_MONTH month
  + (if (month =? 2) && DateTime.is_leap year then 1 else 0).

(** A month of the year and a day of that month. *)
Definition valid_date (year month day : Z) : Prop :=
  1 <= month <= 12 /\ 1 <= day <= days_in_month year month.

(** [month_day n leap] is a month and a day of that month, the [n]-th
    day of the year counted from 0. *)
Definition month_day_ok (leap : bool) (n : Z) : bool :=
  let (m, d) := DateTime.month_day n leap in
  (1 <=? m) && (m <=? 12) && (1 <=? d)
  && (d <=? DateTime.DAYS_IN_MONTH m + (if (m =? 2) && leap then 1 else 0))
  && (DateTime.DAYS_BEFORE_MONTH m + (if (2 <? m) && leap then 1 else 0) + d
      =? n + 1).

(** Lexicographic order on dates. *)
Definition date_lt (a b : Z * Z * Z) : Prop :=
  let '(y1, m1, d1) := a in
  let '(y2, m2, d2) := b in
  y1 < y2 \/ (y1 = y2 /\ (m1 < m2 \/ (m1 = m2 /\ d1 < d2))).

(** The end of an ISO timestamp: the fraction, if any, and the offset. *)
Definition iso_tail (microsecond : Z) : string :=
  (if (microsecond =? 0)%Z then ""
   else "." ++ DateTime.digits 6 microsecond) ++ "+00:00".

(** How a run of [fetch_and_store] leaves its first lines (46-50): it
    fails with an exception, it skips the tick, or it goes on to store
    the body it received. *)
Inductive gate : Type :=
| Fails (e : exn)
| Skips
| Proceeds (data : json).

Definition gate_of (o : outcome) : gate :=
  match o with
  | Raises e => Fails e
  | Responds r =>
      if (400 <=? status_code r) && (status_code r <? 600)
      then Fails (HTTPError (status_code r))
      else match body r with
           | None => Fails JSONDecodeError
           | Some data =>
               match get data "status" with
               | Raise e => Fails e
               | Ok status => if eq_one status then Proceeds data else Skips
               end
           end
  end.

(** The integers SQLite stores. *)
Definition int64 (z : Z) : bool := (INT64_MIN <=? z) && (z <=? INT64_MAX).

(** The id, title and capacity of an entry of the documented shape
    [{"id": int, "title": string, "capacity": int}] with 64-bit integers;
    none for an entry of another shape. *)
Definition documented_entry (location : json) : option (Z * string * Z) :=
  match getitem location "id", getitem location "title",
        getitem location "capacity" with
  | Ok (JInt id), Ok (JStr title), Ok (JInt cap) =>
      if int64 id && int64 cap then Some (id, title, cap) else None
  | _, _, _ => None
  end.

(** The row of a documented entry under a timestamp. *)
Definition row_at (ts : string) (entry : Z * string * Z) : Row :=
  {| timestamp := ts; location_id := SInt (fst (fst entry));
     location_name := snd (fst entry); capacity := SInt (snd entry) |}.

(** The sum over the items of a dict of a measure of their series. *)
Definition total (m : series -> nat) (d : dict) : nat :=
  list_sum (map (fun kv => m (snd kv)) d).

(** The order of timestamps as texts. *)
Definition text_le (s t : string) : Prop := String.leb s t = true.

(** Arming the timer once: lines 68-70. *)
Definition arm (w : World) : World :=
  if scheduler_running w then w
  else set_scheduler_running true
         (set_scheduler_jobs (S (scheduler_jobs w)) w).

(** The states a process can be in: at most one timer is armed, it is
    armed exactly when the scheduler runs, the activation flag is set
    only when the scheduler runs, and the scheduler runs only once the
    table and the index exist. *)
Definition well_formed (w : World) : Prop :=
  (scheduler_jobs w <= 1)%nat
  /\ (scheduler_running w = true <-> scheduler_jobs w = 1%nat)
  /\ (scheduler_started w = true -> scheduler_running w = true)
  /\ (scheduler_running w = true ->
      capacity_table (db w) <> None
      /\ idx_capacity_location_timestamp (db w) = true).

(** The number of requests that a sequence of events makes the process
    send to the API: one for each tick of a running scheduler, and one
    for each request that finds the activation flag unset. *)
Fixpoint fetches (running started : bool) (events : list event) : nat :=
  match events with
  | [] => 0
  | Tick :: rest => (if running then 1 else 0) + fetches running started rest
  | Request _ :: rest => (if started then 0 else 1) + fetches true true rest
  end.

(** The table of [w] holds the rows [before], untouched and in place,
    followed by others; and its keys are pairwise distinct if those of
    [before] are. *)
Definition extends (before : list Row) (w : World) : Prop :=
  (exists added, rows_of (db w) = before ++ added)
  /\ (distinct_keys before = true -> distinct_keys (rows_of (db w)) = true).

(** The id of a documented entry. *)
Definition entry_id (entry : Z * string * Z) : Z := fst (fst entry).

(** The answer of the API is the documented one: a status that
    [raise_for_status] lets pass, a JSON object with status 1 and a list
    of entries of the documented shape, whose ids are pairwise
    distinct. *)
Definition documented_answer (o : outcome) (entries : list (Z * string * Z))
  : Prop :=
  exists code fields status locations,
    o = Responds {| status_code := code; body := Some (JObj fields) |}
    /\ (code < 400 \/ 600 <= code)
    /\ lookup "status" fields = Some status
    /\ eq_one status = true
    /\ lookup "data" fields = Some (JList locations)
    /\ map documented_entry locations = map Some entries
    /\ NoDup (map entry_id entries).

(** Every row of the table carries the ISO text of a reading of the
    clock that was made before [w]. *)
Definition stamped (env : Env) (w : World) : Prop :=
  Forall (fun r => exists k, (k < clock_reads w)%nat
                             /\ timestamp r = DateTime.isoformat (utcnow env k))
         (rows_of (db w)).

(** The readings of the clock up to the [n]-th are datetimes, each later
    than the one before. *)
Definition clock_advances (env : Env) (n : nat) : Prop :=
  (forall k, (k <= n)%nat -> DateTime.representable (utcnow env k) = true)
  /\ (forall i j, (i < j)%nat -> (j <= n)%nat -> utcnow env i < utcnow env j).

(** The state of a process in which no run of the collector has failed:
    it is well formed, its rows are stamped by the clock, their keys are
    pairwise distinct and nothing was printed. *)
Definition healthy_state (env : Env) (w : World) : Prop :=
  well_formed w
  /\ stamped env w
  /\ distinct_keys (rows_of (db w)) = true
  /\ stdout w = [].

(* ================================================================== *)
(** ** Grouping rows into series *)

Section Grouping.

Lemma first_seen_In (l : list string) (x : string) :
  In x (first_seen l) <-> In x l.
Proof.
  induction l as [|a l IH]; simpl; [tauto|].
  destruct (string_dec a x) as [->|Hne]; [tauto|].
  split.
  - intros [H|H]; [tauto|].
    apply in_remove in H. right. apply IH, H.
  - intros [H|H]; [tauto|].
    right. apply in_in_remove; [congruence|]. apply IH, H.
Qed.

Lemma remove_NoDup (x : string) (l : list string) :
  NoDup l -> NoDup (remove string_dec x l).
Proof.
  induction 1 as [|a l Hin Hnd IH]; simpl; [constructor|].
  destruct (string_dec x a); [assumption|].
  constructor; [|assumption].
  intros H. apply in_remove in H. tauto.
Qed.

Lemma first_seen_NoDup (l : list string) : NoDup (first_seen l).
Proof.
  induction l as [|a l IH]; simpl; constructor.
  - apply remove_In.
  - apply remove_NoDup, IH.
Qed.

Lemma first_seen_snoc (l : list string) (x : string) :
  first_seen (l ++ [x])
  = first_seen l ++ (if in_dec string_dec x l then [] else [x]).
Proof.
  induction l as [|a l IH]; simpl; [reflexivity|].
  rewrite IH, remove_app. f_equal. f_equal.
  destruct (in_dec string_dec x l) as [Hl|Hl];
    destruct (string_dec a x) as [->|Hne]; simpl.
  - destruct (in_dec string_dec x l); [reflexivity|contradiction].
  - destruct (in_dec string_dec x l); [reflexivity|contradiction].
  - destruct (string_dec x x) as [_|Hxx]; [reflexivity|congruence].
  - destruct (string_dec a x) as [Hax|_]; [congruence|].
    destruct (in_dec string_dec x l); [contradiction|reflexivity].
Qed.

Lemma table_keys (F : string -> series) (ks : list string) :
  map fst (table F ks) = ks.
Proof.
  unfold table. rewrite map_map. simpl. apply map_id.
Qed.

Lemma table_ext (F G : string -> series) (ks : list string) :
  (forall k, In k ks -> F k = G k) -> table F ks = table G ks.
Proof.
  intros H. apply map_ext_in. intros k Hk. now rewrite H.
Qed.

Lemma contains_In (key : string) (d : dict) :
  contains key d = true <-> In key (map fst d).
Proof.
  unfold contains. rewrite existsb_exists, in_map_iff.
  split; intros [kv [H1 H2]]; exists kv.
  - apply String.eqb_eq in H2. tauto.
  - split; [tauto|]. apply String.eqb_eq. tauto.
Qed.

Lemma update_table (key : string) (f : series -> series)
    (F : string -> series) (ks : list string) :
  NoDup ks ->
  update key f (table F ks)
  = table (fun k => if String.eqb k key then f (F k) else F k) ks.
Proof.
  induction 1 as [|k ks Hin Hnd IH]; simpl; [reflexivity|].
  destruct (String.eqb_spec k key) as [->|Hne].
  - f_equal. apply table_ext. intros k Hk.
    destruct (String.eqb_spec k key) as [->|_]; [contradiction|reflexivity].
  - f_equal. apply IH.
Qed.

Lemma update_add (key : string) (f : series -> series) (v : series) (d : dict) :
  ~ In key (map fst d) ->
  update key f (add key v d) = add key (f v) d.
Proof.
  unfold add. induction d as [|[k x] d IH]; simpl; intros Hin.
  - now rewrite String.eqb_refl.
  - destruct (String.eqb_spec k key) as [->|Hne]; [tauto|].
    f_equal. apply IH. tauto.
Qed.

Lemma filter_named_absent (name : string) (rows : list Row) :
  ~ In name (map location_name rows) -> filter (named name) rows = [].
Proof.
  induction rows as [|r rows IH]; simpl; [reflexivity|].
  intros Hin. unfold named at 1.
  destruct (String.eqb_spec (location_name r) name) as [Heq|_]; [tauto|].
  apply IH. tauto.
Qed.

Lemma series_of_snoc (name : string) (rows : list Row) (r : Row) :
  series_of name (rows ++ [r])
  = if String.eqb name (location_name r)
    then {| timestamps := timestamps (series_of name rows) ++ [timestamp r];
            capacities := capacities (series_of name rows) ++ [capacity r] |}
    else series_of name rows.
Proof.
  unfold series_of. rewrite filter_app, !map_app. simpl.
  rewrite (String.eqb_sym name).
  change (String.eqb (location_name r) name) with (named name r).
  destruct (named name r); simpl.
  - reflexivity.
  - now rewrite !app_nil_r.
Qed.

Lemma group_rows_snoc (rows : list Row) (r : Row) :
  group_rows (rows ++ [r]) = group_row (group_rows rows) r.
Proof.
  unfold group_rows. now rewrite fold_left_app.
Qed.

(** What the loop of [get_data] builds: one item per name, in order of
    first appearance, holding the series of that name. *)
Lemma group_rows_table (rows : list Row) :
  group_rows rows
  = table (fun name => series_of name rows)
          (first_seen (map location_name rows)).
Proof.
  induction rows as [|r rows IH] using rev_ind; [reflexivity|].
  rewrite group_rows_snoc, IH, map_app.
  change (map location_name [r]) with [location_name r].
  rewrite first_seen_snoc.
  unfold group_row.
  set (n := location_name r).
  set (ks := first_seen (map location_name rows)).
  assert (Hnd : NoDup ks) by apply first_seen_NoDup.
  destruct (in_dec string_dec n (map location_name rows)) as [Hin|Hin].
  - assert (Hc : contains n (table (fun name => series_of name rows) ks) = true).
    { apply contains_In. rewrite table_keys. now apply first_seen_In. }
    rewrite Hc, app_nil_r. simpl.
    rewrite !update_table by assumption.
    apply table_ext. intros k _. rewrite series_of_snoc. fold n.
    now destruct (String.eqb k n).
  - assert (Hk : ~ In n (map fst (table (fun name => series_of name rows) ks))).
    { rewrite table_keys. unfold ks. now rewrite first_seen_In. }
    assert (Hc : contains n (table (fun name => series_of name rows) ks) = false).
    { destruct (contains n _) eqn:E; [|reflexivity].
      apply contains_In in E. contradiction. }
    rewrite Hc. simpl. rewrite !update_add by assumption. simpl.
    unfold add, table. rewrite map_app. simpl. f_equal.
    + apply map_ext_in. intros k Hk'. f_equal.
      rewrite series_of_snoc. fold n.
      destruct (String.eqb_spec k n) as [->|_]; [|reflexivity].
      exfalso. apply Hin. now apply first_seen_In.
    + f_equal. f_equal. rewrite series_of_snoc. fold n.
      rewrite String.eqb_refl. unfold series_of.
      now rewrite filter_named_absent.
Qed.

End Grouping.

(* ================================================================== *)
(** ** ORDER BY timestamp, location_id *)

Section Ordering.

Lemma real_leb_total (a b : real) : real_leb a b = false -> real_leb b a = true.
Proof.
  destruct a as [[|]|p], b as [[|]|q]; simpl; try congruence.
  unfold Qle_bool. rewrite Z.leb_gt, Z.leb_le. lia.
Qed.

Lemma sql_leb_total (a b : sqlval) : sql_leb a b = false -> sql_leb b a = true.
Proof.
  destruct a as [x|r|s], b as [y|r'|t]; cbn [sql_leb]; try congruence;
    try apply real_leb_total.
  - rewrite Z.leb_gt, Z.leb_le. lia.
  - intros H. destruct (String.leb_total s t) as [H'|H'];
      [rewrite H' in H; discriminate | exact H'].
Qed.

Lemma row_leb_total (a b : Row) : row_leb a b = false -> row_leb b a = true.
Proof.
  unfold row_leb. rewrite (String.compare_antisym (timestamp a) (timestamp b)).
  destruct (String.compare (timestamp b) (timestamp a)); cbn [CompOpp];
    try congruence.
  apply sql_leb_total.
Qed.

Lemma insert_sorted_perm (r : Row) (l : list Row) :
  Permutation (r :: l) (insert_sorted r l).
Proof.
  induction l as [|x l IH]; simpl; [reflexivity|].
  destruct (row_leb r x); [reflexivity|].
  rewrite perm_swap. now apply perm_skip.
Qed.

Lemma order_by_perm (rows : list Row) : Permutation rows (order_by rows).
Proof.
  induction rows as [|r rows IH]; simpl; [constructor|].
  rewrite <- insert_sorted_perm. now apply perm_skip.
Qed.

Lemma insert_sorted_HdRel (a r : Row) (l : list Row) :
  row_le a r -> HdRel row_le a l -> HdRel row_le a (insert_sorted r l).
Proof.
  intros Har Hal. destruct l as [|x l]; simpl.
  - now constructor.
  - destruct (row_leb r x); constructor; [assumption|].
    now inversion Hal.
Qed.

Lemma insert_sorted_Sorted (r : Row) (l : list Row) :
  Sorted row_le l -> Sorted row_le (insert_sorted r l).
Proof.
  induction 1 as [|x l Hs IH Hhd]; simpl.
  - repeat constructor.
  - destruct (row_leb r x) eqn:E.
    + constructor; [now constructor|]. now constructor.
    + constructor; [assumption|].
      apply insert_sorted_HdRel; [|assumption].
      now apply row_leb_total.
Qed.

Lemma order_by_Sorted (rows : list Row) : Sorted row_le (order_by rows).
Proof.
  induction rows as [|r rows IH]; simpl; [constructor|].
  now apply insert_sorted_Sorted.
Qed.

End Ordering.

(* ================================================================== *)
(** ** One run of the collector *)

Section Collector.

Lemma insert_row_run (r : Row) (c : connection) :
  insert_row r c
  = match capacity_table (pending c) with
    | None => (Raise OperationalError, c)
    | Some rows =>
        if existsb (same_key r) rows then (Raise IntegrityError, c)
        else (Ok tt, {| committed := committed c;
                        pending := with_rows (rows ++ [r]) (pending c) |})
    end.
Proof.
  unfold insert_row, bind, prepare, raise, modify.
  destruct (capacity_table (pending c)); [|reflexivity].
  now destruct (existsb _ _).
Qed.

Lemma rows_of_with_rows (rows : list Row) (d : Database) :
  rows_of (with_rows rows d) = rows.
Proof. reflexivity. Qed.

(** A statement either fails and changes nothing, or adds the one row
    built from its values; it never touches what is committed. *)
Lemma insert_location_inv (env : Env) (ts : string) (location : json)
    (c c' : connection) (res : result unit) :
  insert_location env ts location c = (res, c') ->
  match res with
  | Raise _ => c' = c
  | Ok _ =>
      exists r,
        sample_of env ts location r /\
        committed c' = committed c /\
        existsb (same_key r) (rows_of (pending c)) = false /\
        pending c' = with_rows (rows_of (pending c) ++ [r]) (pending c)
  end.
Proof.
  unfold insert_location, execute_insert, bind, lift, prepare.
  destruct (getitem location "id") as [id|] eqn:Hid;
    [|intros H; inversion H; reflexivity].
  destruct (getitem location "title") as [title|] eqn:Htitle;
    [|intros H; inversion H; reflexivity].
  destruct (getitem location "capacity") as [cap|] eqn:Hcap;
    [|intros H; inversion H; reflexivity].
  destruct (capacity_table (pending c)) as [rows|] eqn:Htab;
    [|intros H; inversion H; reflexivity].
  destruct (bind_param id) as [idv|] eqn:Bid;
    [|intros H; inversion H; reflexivity].
  destruct (bind_param title) as [titlev|] eqn:Btitle;
    [|intros H; inversion H; reflexivity].
  destruct (bind_param cap) as [capv|] eqn:Bcap;
    [|intros H; inversion H; reflexivity].
  destruct (new_row (sqlite env) ts idv titlev capv) as [r|] eqn:Hrow;
    [|intros H; inversion H; reflexivity].
  rewrite insert_row_run, Htab.
  destruct (existsb (same_key r) rows) eqn:Hkey;
    intros H; inversion H; subst; [reflexivity|].
  exists r. unfold rows_of. rewrite Htab. simpl.
  repeat split; try assumption.
  unfold new_row in Hrow.
  destruct idv as [idv|], titlev as [titlev|], capv as [capv|];
    try discriminate.
  inversion Hrow; subst.
  now exists id, title, cap, idv, titlev, capv.
Qed.

Lemma rows_of_store (batch : list Row) (d : Database) :
  rows_of (store batch d) = rows_of d ++ batch.
Proof.
  destruct batch; simpl; [now rewrite app_nil_r|reflexivity].
Qed.

Lemma store_cons (r : Row) (batch : list Row) (d : Database) :
  store batch (with_rows (rows_of d ++ [r]) d) = store (r :: batch) d.
Proof.
  destruct batch as [|r' batch]; [reflexivity|].
  unfold store. rewrite rows_of_with_rows, <- app_assoc. reflexivity.
Qed.

(** The loop: when it ends normally, one row per entry was added, in
    order; in every case what is committed stays as it was. *)
Lemma insert_loop_inv (env : Env) (ts : string) (locations : list json) :
  forall (c c' : connection) (res : result unit),
    for_each locations (insert_location env ts) c = (res, c') ->
    committed c' = committed c /\
    match res with
    | Raise _ => True
    | Ok _ =>
        exists batch,
          Forall2 (sample_of env ts) locations batch /\
          pending c' = store batch (pending c)
    end.
Proof.
  induction locations as [|location locations IH]; intros c c' res; simpl.
  - unfold ret. intros H. inversion H; subst. split; [reflexivity|].
    exists []. split; [constructor|reflexivity].
  - unfold bind at 1.
    destruct (insert_location env ts location c) as [[[]|e] c1] eqn:H1.
    + apply insert_location_inv in H1.
      destruct H1 as (r & Hr & Hc & _ & Hp).
      intros H. apply IH in H. destruct H as [Hc' H].
      split; [congruence|].
      destruct res as [[]|e]; [|exact I].
      destruct H as (batch & Hb & Hp').
      exists (r :: batch). split; [now constructor|].
      now rewrite Hp', Hp, store_cons.
    + apply insert_location_inv in H1. subst c1.
      intros H. inversion H; subst. split; [reflexivity|exact I].
Qed.

Lemma for_each_raises {S A : Type} (body : A -> M S unit) (k : nat) :
  forall (items : list A) (x : A) (s s1 s2 : S) (e : exn),
    for_each (firstn k items) body s = (Ok tt, s1) ->
    nth_error items k = Some x ->
    body x s1 = (Raise e, s2) ->
    for_each items body s = (Raise e, s2).
Proof.
  induction k as [|k IH]; intros [|y items] x s s1 s2 e; simpl;
    try discriminate.
  - unfold ret. intros H1 H2 H3. inversion H1; inversion H2; subst.
    unfold bind. now rewrite H3.
  - unfold bind.
    destruct (body y s) as [[[]|e'] s'] eqn:Hy; [|discriminate].
    apply IH.
Qed.

Lemma set_db_same (w : World) : set_db (db w) w = w.
Proof. now destruct w. Qed.

(** The [with] block on a body whose [data] is the list [locations]. *)
Lemma store_samples_run (env : Env) (ts : string)
    (fields : list (string * json)) (locations : list json) (w : World) :
  lookup "data" fields = Some (JList locations) ->
  store_samples env ts (JObj fields) w
  = match for_each locations (insert_location env ts) (connect (db w)) with
    | (Ok _, c) => (Ok tt, set_db (pending c) w)
    | (Raise e, c) => (Raise e, w)
    end.
Proof.
  intros Hdata.
  unfold store_samples, on_db, with_connection, bind, lift, getitem, iter.
  rewrite Hdata.
  destruct (for_each locations (insert_location env ts) (connect (db w)))
    as [[[]|e] c] eqn:Hloop; simpl.
  - reflexivity.
  - apply insert_loop_inv in Hloop. destruct Hloop as [Hc _].
    simpl in Hc. rewrite Hc. now rewrite set_db_same.
Qed.

(** The [try] block up to the status gate. *)
Lemma fetch_and_store_try_run (env : Env) (w : World)
    (fields : list (string * json)) :
  answers env w fields ->
  fetch_and_store_try env w
  = if eq_one (status_of fields)
    then store_samples env (tick_timestamp env w) (JObj fields)
           (set_clock_reads (S (clock_reads w)) (requested w))
    else (Ok tt, requested w).
Proof.
  intros (code & Hresp & Hcode).
  unfold fetch_and_store_try, bind, requests_get, raise_for_status,
    response_json, lift, get, ret, raise, datetime_now, status_of.
  rewrite Hresp. cbn [status_code body].
  destruct ((400 <=? code) && (code <? 600)) eqn:E.
  { apply andb_true_iff in E. rewrite Z.leb_le, Z.ltb_lt in E. lia. }
  destruct (lookup "status" fields) as [status|];
    [destruct (eq_one status)|]; reflexivity.
Qed.

Lemma eq_one_iff (v : json) :
  eq_one v = true
  <-> v = JInt 1 \/ v = JBool true
      \/ exists q, v = JFloat (FReal (RFin q)) /\ Qeq q 1.
Proof.
  split.
  - destruct v as [|b|z|[|[neg|q]]|s|l|o]; simpl; try discriminate.
    + intros ->. tauto.
    + intros H. apply Z.eqb_eq in H. subst. tauto.
    + intros H. apply Qeq_bool_iff in H. right. right. now exists q.
  - intros [->|[->|(q & -> & H)]]; simpl; try reflexivity.
    now apply Qeq_bool_iff.
Qed.

Lemma sample_of_timestamp (env : Env) (ts : string) (location : json) (r : Row) :
  sample_of env ts location r -> timestamp r = ts.
Proof.
  intros (id & title & cap & idv & titlev & capv & H).
  decompose [and] H. subst r. reflexivity.
Qed.

(** The run of [fetch_and_store] once fetching has failed. *)
Lemma fetch_and_store_fetch_error (env : Env) (w : World) (e : exn) :
  fetch_error (remote env (requests_sent w)) = Some e ->
  fetch_and_store env w = (Ok tt, set_stdout (stdout w ++ [e]) (requested w)).
Proof.
  unfold fetch_error, fetch_and_store, try_except, fetch_and_store_try,
    bind, requests_get, raise_for_status, response_json, raise, ret.
  destruct (remote env (requests_sent w)) as [e'|r].
  - intros H. inversion H; subst. reflexivity.
  - destruct ((400 <=? status_code r) && (status_code r <? 600)).
    + intros H. inversion H; subst. reflexivity.
    + destruct (body r); [discriminate|].
      intros H. inversion H; subst. reflexivity.
Qed.

(** An entry of the documented shape is stored as it is. *)
Lemma sample_of_documented (env : Env) (ts : string) (location : json)
    (id cap : Z) (title : string) (r : Row) :
  getitem location "id" = Ok (JInt id) ->
  getitem location "title" = Ok (JStr title) ->
  getitem location "capacity" = Ok (JInt cap) ->
  sample_of env ts location r ->
  r = {| timestamp := ts; location_id := SInt id;
         location_name := title; capacity := SInt cap |}.
Proof.
  intros Hid Htitle Hcap (id' & title' & cap' & idv & titlev & capv & H).
  destruct H as (Hid' & Htitle' & Hcap' & Bid & Btitle & Bcap & ->).
  rewrite Hid in Hid'. rewrite Htitle in Htitle'. rewrite Hcap in Hcap'.
  inversion Hid'; inversion Htitle'; inversion Hcap'; subst.
  simpl in Bid, Btitle, Bcap. inversion Btitle; subst.
  destruct ((INT64_MIN <=? id) && (id <=? INT64_MAX)); [|discriminate].
  destruct ((INT64_MIN <=? cap) && (cap <=? INT64_MAX)); [|discriminate].
  inversion Bid; inversion Bcap; subst. reflexivity.
Qed.

(** A row whose key is already in the table is refused. *)
Lemma duplicate_key_raises (r : Row) (c : connection) (rows : list Row) :
  capacity_table (pending c) = Some rows ->
  existsb (same_key r) rows = true ->
  insert_row r c = (Raise IntegrityError, c).
Proof.
  intros Htab Hkey. now rewrite insert_row_run, Htab, Hkey.
Qed.

End Collector.

(* ================================================================== *)
(** ** Claims about the collector *)

(** C1. Append of one tick's batch is all-or-nothing: when a run of
    [fetch_and_store] reaches the INSERT loop and the insertion of one of
    its samples fails (with any exception, a primary-key violation in
    particular), the run ends normally, prints the exception, and leaves
    the database file exactly as it was: no sample of the batch is
    persisted and the rows stored before are unchanged. *)
Theorem C1_batch_all_or_nothing (env : Env) (w : World)
    (locations : list json) (k : nat) (e : exn) :
  reaches_loop env w locations ->
  insertion_fails env w locations k e ->
  fetch_and_store env w
  = (Ok tt, set_stdout (stdout w ++ [e])
              (set_clock_reads (S (clock_reads w)) (requested w)))
  /\ db (snd (fetch_and_store env w)) = db w.
Proof.
  intros (fields & status & Hans & Hstatus & Hone & Hdata)
         (location & c & c' & Hfirst & Hnth & Hfail).
  assert (Hrun : fetch_and_store env w
                 = (Ok tt, set_stdout (stdout w ++ [e])
                             (set_clock_reads (S (clock_reads w)) (requested w)))).
  { unfold fetch_and_store, try_except.
    rewrite (fetch_and_store_try_run env w fields Hans).
    unfold status_of. rewrite Hstatus, Hone.
    rewrite (store_samples_run _ _ _ _ _ Hdata).
    change (db (set_clock_reads (S (clock_reads w)) (requested w))) with (db w).
    now rewrite (for_each_raises _ _ _ _ _ _ _ _ Hfirst Hnth Hfail). }
  split; [exact Hrun|]. now rewrite Hrun.
Qed.

Lemma C1_batch_all_or_nothing_witness :
  let env := Scenario.env_of (Scenario.answer 200 (JInt 1) Scenario.duplicate_ids) in
  reaches_loop env Scenario.initialised Scenario.duplicate_ids
  /\ insertion_fails env Scenario.initialised Scenario.duplicate_ids 1 IntegrityError
  /\ db (snd (fetch_and_store env Scenario.initialised)) = db Scenario.initialised.
Proof.
  intros env.
  assert (H1 : reaches_loop env Scenario.initialised Scenario.duplicate_ids).
  { exists [("status", JInt 1); ("data", JList Scenario.duplicate_ids)], (JInt 1).
    repeat split. exists 200. split; [reflexivity|lia]. }
  assert (H2 : insertion_fails env Scenario.initialised Scenario.duplicate_ids
                 1 IntegrityError).
  { set (c := snd (insert_location env (tick_timestamp env Scenario.initialised)
                     (Scenario.location 260 "Hannovergasse" 10)
                     (connect (db Scenario.initialised)))).
    exists (Scenario.location 260 "Wienerberg" 5), c, c.
    split; [vm_compute; reflexivity|].
    split; [reflexivity|]. vm_compute. reflexivity. }
  split; [exact H1|]. split; [exact H2|].
  exact (proj2 (C1_batch_all_or_nothing env Scenario.initialised
                  Scenario.duplicate_ids 1 IntegrityError H1 H2)).
Defined.

(** C5 (counterexample). A final response with status 300 is not 2xx,
    yet [raise_for_status] lets it pass: its body is parsed and its
    sample is stored. *)
Lemma C5_non_2xx_counterexample :
  let env := Scenario.env_of (Scenario.answer 300 (JInt 1) Scenario.one_location) in
  remote env (requests_sent Scenario.initialised)
  = Scenario.answer 300 (JInt 1) Scenario.one_location
  /\ ~ (200 <= 300 < 300)
  /\ rows_of (db Scenario.initialised) = []
  /\ rows_of (db (snd (fetch_and_store env Scenario.initialised)))
     = [Scenario.one_row].
Proof.
  intros env. split; [reflexivity|]. split; [lia|].
  split; [reflexivity|]. vm_compute. reflexivity.
Qed.

(** C5 (amended). Fetch failure isolation: when the request raises
    (network error, timeout), or the response has a 4xx or 5xx status, or
    its body is not JSON, [fetch_and_store] catches the exception, prints
    it, returns normally, and leaves the database as it was. *)
Theorem C5_fetch_failure_isolated (env : Env) (w : World) (e : exn) :
  fetch_error (remote env (requests_sent w)) = Some e ->
  fst (fetch_and_store env w) = Ok tt
  /\ db (snd (fetch_and_store env w)) = db w
  /\ stdout (snd (fetch_and_store env w)) = stdout w ++ [e].
Proof.
  intros H. rewrite (fetch_and_store_fetch_error env w e H). now repeat split.
Qed.

Lemma C5_fetch_failure_isolated_witness :
  let env := Scenario.env_of (Raises Timeout) in
  fetch_error (remote env (requests_sent Scenario.initialised)) = Some Timeout
  /\ fst (fetch_and_store env Scenario.initialised) = Ok tt
  /\ db (snd (fetch_and_store env Scenario.initialised)) = db Scenario.initialised
  /\ stdout (snd (fetch_and_store env Scenario.initialised)) = [Timeout].
Proof.
  intros env. split; [reflexivity|].
  exact (C5_fetch_failure_isolated env Scenario.initialised Timeout eq_refl).
Defined.

(** C6 (counterexample). The status [true] is not the integer 1, yet
    [True == 1] holds in Python and the sample is stored; and a body that
    is well-formed JSON but not an object has no status and is treated as
    an error: the AttributeError is printed. *)
Lemma C6_status_counterexample :
  (let env := Scenario.env_of (Scenario.answer 200 (JBool true) Scenario.one_location) in
   JBool true <> JInt 1
   /\ rows_of (db (snd (fetch_and_store env Scenario.initialised)))
      = [Scenario.one_row])
  /\ (let env := Scenario.env_of
                   (Responds {| status_code := 200; body := Some (JList []) |}) in
      stdout (snd (fetch_and_store env Scenario.initialised)) = [AttributeError]).
Proof.
  split.
  - intros env. split; [discriminate|]. vm_compute. reflexivity.
  - vm_compute. reflexivity.
Qed.

(** C6 (amended). Status gate: for every response that
    [raise_for_status] lets pass and whose body is a JSON object, the
    value [data.get("status")] equals 1 in Python exactly when it is the
    integer 1, the boolean true or a float equal to 1; when it does not
    (or the field is absent) the run is a skip: it returns normally, and
    stores nothing, prints nothing and does not read the clock; when it
    does, the run reads the clock once and executes the INSERT block on
    the body, under the exception handler. *)
Theorem C6_status_gate (env : Env) (w : World) (fields : list (string * json)) :
  answers env w fields ->
  (eq_one (status_of fields) = true
   <-> status_of fields = JInt 1 \/ status_of fields = JBool true
       \/ exists q, status_of fields = JFloat (FReal (RFin q)) /\ Qeq q 1)
  /\ fetch_and_store env w
     = if eq_one (status_of fields)
       then try_except
              (store_samples env (tick_timestamp env w) (JObj fields))
              print_error
              (set_clock_reads (S (clock_reads w)) (requested w))
       else (Ok tt, requested w).
Proof.
  intros Hans. split; [apply eq_one_iff|].
  unfold fetch_and_store at 1, try_except at 1.
  rewrite (fetch_and_store_try_run env w fields Hans).
  now destruct (eq_one (status_of fields)).
Qed.

Lemma C6_status_gate_witness :
  let fields := [("status", JInt 0); ("data", JList Scenario.one_location)] in
  let env := Scenario.env_of (Scenario.answer 200 (JInt 0) Scenario.one_location) in
  answers env Scenario.initialised fields
  /\ fetch_and_store env Scenario.initialised
     = (Ok tt, requested Scenario.initialised).
Proof.
  intros fields env.
  assert (H : answers env Scenario.initialised fields).
  { exists 200. split; [reflexivity|lia]. }
  split; [exact H|].
  exact (proj2 (C6_status_gate env Scenario.initialised fields H)).
Defined.

(** C7. Single timestamp per tick: when a run of [fetch_and_store]
    reaches the INSERT loop and its [try] block ends without an
    exception, the clock was read exactly once, and the rows added to the
    table are, in order, one per entry of the [data] array, each with
    that one reading as its timestamp and with its id, name and capacity
    bound from the entry's [id], [title] and [capacity]. *)
Theorem C7_single_timestamp (env : Env) (w : World) (locations : list json) :
  reaches_loop env w locations ->
  fst (fetch_and_store_try env w) = Ok tt ->
  clock_reads (snd (fetch_and_store env w)) = S (clock_reads w)
  /\ exists batch,
       rows_of (db (snd (fetch_and_store env w))) = rows_of (db w) ++ batch
       /\ Forall2 (sample_of env (tick_timestamp env w)) locations batch
       /\ Forall (fun r => timestamp r = tick_timestamp env w) batch.
Proof.
  intros (fields & status & Hans & Hstatus & Hone & Hdata).
  unfold fetch_and_store, try_except.
  rewrite (fetch_and_store_try_run env w fields Hans).
  unfold status_of. rewrite Hstatus, Hone.
  rewrite (store_samples_run _ _ _ _ _ Hdata).
  change (db (set_clock_reads (S (clock_reads w)) (requested w))) with (db w).
  destruct (for_each locations (insert_location env (tick_timestamp env w))
              (connect (db w))) as [[[]|e] c] eqn:Hloop; [|discriminate].
  intros _. split; [reflexivity|].
  apply insert_loop_inv in Hloop.
  destruct Hloop as (_ & batch & Hbatch & Hpending).
  exists batch. cbn [snd db set_db]. rewrite Hpending.
  split; [apply rows_of_store|]. split; [exact Hbatch|].
  clear Hpending Hdata. induction Hbatch as [|l r ls rs Hlr _ IH]; constructor.
  - exact (sample_of_timestamp _ _ _ _ Hlr).
  - exact IH.
Qed.

Lemma C7_single_timestamp_witness :
  let env := Scenario.busy in
  let w := Scenario.initialised in
  reaches_loop env w Scenario.two_locations
  /\ fst (fetch_and_store_try env w) = Ok tt
  /\ (clock_reads (snd (fetch_and_store env w)) = S (clock_reads w)
      /\ exists batch,
           rows_of (db (snd (fetch_and_store env w))) = rows_of (db w) ++ batch
           /\ Forall2 (sample_of env (tick_timestamp env w))
                Scenario.two_locations batch
           /\ Forall (fun r => timestamp r = tick_timestamp env w) batch)
  /\ map timestamp (rows_of (db (snd (fetch_and_store env w))))
     = ["2026-11-03T10:00:00+00:00"; "2026-11-03T10:00:00+00:00"].
Proof.
  intros env w.
  assert (H1 : reaches_loop env w Scenario.two_locations).
  { exists [("status", JInt 1); ("data", JList Scenario.two_locations)], (JInt 1).
    repeat split. exists 200. split; [reflexivity|lia]. }
  assert (H2 : fst (fetch_and_store_try env w) = Ok tt).
  { vm_compute. reflexivity. }
  split; [exact H1|]. split; [exact H2|].
  split; [exact (C7_single_timestamp env w Scenario.two_locations H1 H2)|].
  vm_compute. reflexivity.
Defined.

(* ================================================================== *)
(** ** The table: keys and selections *)

Section Store.

Lemma same_key_sym (a b : Row) : same_key a b = same_key b a.
Proof.
  unfold same_key, sql_eqb.
  now rewrite String.eqb_sym, (andb_comm (sql_leb (location_id a) _)).
Qed.

Lemma existsb_false_iff {A} (f : A -> bool) (l : list A) :
  existsb f l = false <-> forall x, In x l -> f x = false.
Proof.
  induction l as [|a l IH]; simpl.
  - split; [intros _ x []|reflexivity].
  - rewrite orb_false_iff, IH. split.
    + intros [Ha Hl] x [<-|Hx]; auto.
    + intros H. split; [apply H; now left|]. intros x Hx. apply H. now right.
Qed.

Lemma distinct_keys_middle (l l' : list Row) (r : Row) :
  distinct_keys (l ++ r :: l') = true ->
  existsb (same_key r) l = false.
Proof.
  induction l as [|a l IH]; simpl; [reflexivity|].
  rewrite andb_true_iff, negb_true_iff, existsb_app. simpl.
  rewrite !orb_false_iff. intros [(_ & Har & _) Hd].
  rewrite same_key_sym, Har. split; [reflexivity|now apply IH].
Qed.

Lemma filter_all {A} (f : A -> bool) (l : list A) :
  Forall (fun x => f x = true) l -> filter f l = l.
Proof.
  induction 1 as [|x l Hx _ IH]; simpl; [reflexivity|].
  now rewrite Hx, IH.
Qed.

Lemma select_all_run (c : connection) (rows : list Row) :
  capacity_table (pending c) = Some rows ->
  execute_select NoWhere [] c = (Ok (order_by rows), c).
Proof.
  intros H. unfold execute_select, bind, prepare. now rewrite H.
Qed.

Lemma select_since_run (c : connection) (rows : list Row) (since : string) :
  capacity_table (pending c) = Some rows ->
  execute_select WhereTimestampGe [since] c
  = (Ok (order_by (filter (fun r => String.leb since (timestamp r)) rows)), c).
Proof.
  intros H. unfold execute_select, bind, prepare. now rewrite H.
Qed.

End Store.

(* ================================================================== *)
(** ** Claims about the query service *)

Section Series.

Lemma lookup_table (F : string -> series) (ks : list string) (name : string) :
  lookup name (table F ks)
  = if in_dec string_dec name ks then Some (F name) else None.
Proof.
  induction ks as [|k ks IH]; simpl; [reflexivity|].
  destruct (String.eqb_spec k name) as [->|Hne].
  - destruct (string_dec name name); [reflexivity|congruence].
  - destruct (string_dec k name); [congruence|]. rewrite IH.
    now destruct (in_dec string_dec name ks).
Qed.

Lemma existsb_named (name : string) (rows : list Row) :
  existsb (named name) rows = true <-> In name (map location_name rows).
Proof.
  rewrite existsb_exists, in_map_iff.
  split; intros (r & H1 & H2); exists r.
  - apply String.eqb_eq in H2. tauto.
  - split; [tauto|]. apply String.eqb_eq. tauto.
Qed.

Lemma filter_named_relabel (f : Row -> sqlval) (name : string) (rows : list Row) :
  filter (named name) (map (with_location_id f) rows)
  = map (with_location_id f) (filter (named name) rows).
Proof.
  induction rows as [|r rows IH]; simpl; [reflexivity|].
  change (named name (with_location_id f r)) with (named name r).
  destruct (named name r); simpl; now rewrite IH.
Qed.

Lemma series_of_relabel (f : Row -> sqlval) (name : string) (rows : list Row) :
  series_of name (map (with_location_id f) rows) = series_of name rows.
Proof.
  unfold series_of. rewrite filter_named_relabel, !map_map. reflexivity.
Qed.

End Series.

(** C3. Grouping correctness: for every sequence of rows (ordered or
    not), the loop of [get_data] builds a dict with one item per location
    name, in order of first appearance; the item of a name holds the
    timestamps and the capacities of the rows with that name, in row
    order, so that the i-th timestamp and the i-th capacity come from the
    same row, the i-th row of that name.  On
    [(t1, "A", 10), (t1, "B", 5), (t2, "A", 12)] the result is
    [{"A": {"timestamps": [t1, t2], "capacities": [10, 12]},
      "B": {"timestamps": [t1], "capacities": [5]}}]. *)
Theorem C3_grouping_correct :
  (forall rows : list Row,
     group_rows rows
     = map (fun name =>
              (name,
               {| timestamps := map timestamp (filter (named name) rows);
                  capacities := map capacity (filter (named name) rows) |}))
           (first_seen (map location_name rows)))
  /\ (forall (rows : list Row) (name : string) (i : nat),
        nth_error (timestamps (series_of name rows)) i
        = option_map timestamp (nth_error (filter (named name) rows) i)
        /\ nth_error (capacities (series_of name rows)) i
           = option_map capacity (nth_error (filter (named name) rows) i))
  /\ (forall (t1 t2 : string) (id1 id2 id3 : sqlval),
        group_rows
          [ {| timestamp := t1; location_id := id1;
               location_name := "A"; capacity := SInt 10 |};
            {| timestamp := t1; location_id := id2;
               location_name := "B"; capacity := SInt 5 |};
            {| timestamp := t2; location_id := id3;
               location_name := "A"; capacity := SInt 12 |} ]
        = [ ("A", {| timestamps := [t1; t2];
                     capacities := [SInt 10; SInt 12] |});
            ("B", {| timestamps := [t1]; capacities := [SInt 5] |}) ]).
Proof.
  split; [|split].
  - intros rows. apply group_rows_table.
  - intros rows name i. unfold series_of. simpl.
    now rewrite !nth_error_map.
  - reflexivity.
Qed.

(** C10. Grouping keys on the location name only: the dict has each name
    once; the series of a name is made of all the rows with that name, in
    row order, whatever their location ids; replacing the ids of the rows
    changes nothing in the result; in particular two samples with ids 1
    and 2 and one name are merged into one series. *)
Theorem C10_grouping_by_name_only :
  (forall rows : list Row, NoDup (map fst (group_rows rows)))
  /\ (forall (rows : list Row) (name : string),
        lookup name (group_rows rows)
        = if existsb (named name) rows
          then Some {| timestamps := map timestamp (filter (named name) rows);
                       capacities := map capacity (filter (named name) rows) |}
          else None)
  /\ (forall (rows : list Row) (f : Row -> sqlval),
        group_rows (map (with_location_id f) rows) = group_rows rows)
  /\ (forall (t1 t2 name : string) (c1 c2 : sqlval),
        group_rows
          [ {| timestamp := t1; location_id := SInt 1;
               location_name := name; capacity := c1 |};
            {| timestamp := t2; location_id := SInt 2;
               location_name := name; capacity := c2 |} ]
        = [ (name, {| timestamps := [t1; t2]; capacities := [c1; c2] |}) ]).
Proof.
  split; [|split; [|split]].
  - intros rows. rewrite group_rows_table, table_keys.
    apply first_seen_NoDup.
  - intros rows name. rewrite group_rows_table, lookup_table.
    destruct (in_dec string_dec name (first_seen (map location_name rows)))
      as [Hin|Hin]; rewrite first_seen_In in Hin.
    + apply existsb_named in Hin. now rewrite Hin.
    + destruct (existsb (named name) rows) eqn:E; [|reflexivity].
      apply existsb_named in E. contradiction.
  - intros rows f. rewrite !group_rows_table, map_map. simpl.
    apply table_ext. intros name _. apply series_of_relabel.
  - intros t1 t2 name c1 c2. rewrite group_rows_table. simpl.
    destruct (string_dec name name) as [_|Hne]; [|congruence].
    unfold series_of, named. simpl. now rewrite String.eqb_refl.
Qed.

(* ================================================================== *)
(** ** The text order of timestamps *)

Section TextOrder.

Import DateTime.

(** A year has 365 days, and one more when it is a leap year. *)
Lemma days_before_year_succ (y : Z) :
  days_before_year (y + 1)
  = days_before_year y + 365 + (if is_leap y then 1 else 0).
Proof.
  unfold days_before_year, is_leap.
  replace (y + 1 - 1) with y by lia.
  destruct (y mod 4 =? 0) eqn:E4; destruct (y mod 100 =? 0) eqn:E100;
    destruct (y mod 400 =? 0) eqn:E400; simpl;
    rewrite ?Z.eqb_eq, ?Z.eqb_neq in *; (Z.div_mod_to_equations; lia).
Qed.

Lemma days_before_year_mono (y1 y2 : Z) :
  y1 <= y2 -> days_before_year y1 <= days_before_year y2.
Proof.
  unfold days_before_year. intros H. (Z.div_mod_to_equations; lia).
Qed.

Lemma forallb_upto (f : Z -> bool) (k : nat) :
  forallb (fun i => f (Z.of_nat i)) (seq 0 k) = true ->
  forall n, 0 <= n < Z.of_nat k -> f n = true.
Proof.
  intros H n Hn. rewrite forallb_forall in H.
  specialize (H (Z.to_nat n)). rewrite Z2Nat.id in H by lia.
  apply H. apply in_seq. lia.
Qed.

(** The month and day of every day of a year, checked day by day. *)
Lemma month_day_spec (n : Z) (leap : bool) :
  0 <= n < 365 + (if leap then 1 else 0) ->
  month_day_ok leap n = true.
Proof.
  intros Hn. destruct leap.
  - apply (forallb_upto (month_day_ok true) 366); [vm_compute; reflexivity|lia].
  - apply (forallb_upto (month_day_ok false) 365); [vm_compute; reflexivity|lia].
Qed.

(** [ord2ymd] yields a date of years 1..9999 whose ordinal is the one
    given: it inverts [ymd2ord]. *)
Lemma ord2ymd_spec (n : Z) :
  1 <= n <= MAX_ORDINAL ->
  let '(y, m, d) := ord2ymd n in
  1 <= y <= 9999 /\ valid_date y m d /\ ymd2ord y m d = n.
Proof.
  intros Hn. unfold ord2ymd, MAX_ORDINAL in *.
  set (n400 := (n - 1) / 146097).
  set (r1 := (n - 1) mod 146097).
  set (n100 := r1 / 36524).
  set (r2 := r1 mod 36524).
  set (n4 := r2 / 1461).
  set (r3 := r2 mod 1461).
  set (n1 := r3 / 365).
  set (r4 := r3 mod 365).
  assert (H1 : n - 1 = 146097 * n400 + r1 /\ 0 <= r1 < 146097)
    by (unfold n400, r1; Z.div_mod_to_equations; lia).
  assert (H2 : r1 = 36524 * n100 + r2 /\ 0 <= r2 < 36524)
    by (unfold n100, r2; Z.div_mod_to_equations; lia).
  assert (H3 : r2 = 1461 * n4 + r3 /\ 0 <= r3 < 1461)
    by (unfold n4, r3; Z.div_mod_to_equations; lia).
  assert (H4 : r3 = 365 * n1 + r4 /\ 0 <= r4 < 365)
    by (unfold n1, r4; Z.div_mod_to_equations; lia).
  clearbody n400 r1 n100 r2 n4 r3 n1 r4.
  destruct ((n1 =? 4) || (n100 =? 4)) eqn:Hend.
  - unfold valid_date, days_in_month, ymd2ord, days_before_year, is_leap.
    apply orb_true_iff in Hend. rewrite !Z.eqb_eq in Hend.
    simpl DAYS_IN_MONTH. simpl DAYS_BEFORE_MONTH.
    replace (12 =? 2) with false by reflexivity.
    replace (2 <? 12) with true by reflexivity. simpl andb.
    set (Y := n400 * 400 + 1 + n100 * 100 + n4 * 4 + n1 - 1) in *.
    assert (HY : Y mod 4 = 0) by (unfold Y; Z.div_mod_to_equations; lia).
    assert (HL : (Y mod 4 =? 0) && (negb (Y mod 100 =? 0) || (Y mod 400 =? 0))
                 = true).
    { rewrite HY. simpl. apply orb_true_iff.
      destruct (Y mod 100 =? 0) eqn:E; [right|left; reflexivity].
      apply Z.eqb_eq in E. apply Z.eqb_eq.
      unfold Y in *. Z.div_mod_to_equations. lia. }
    rewrite HL.
    unfold Y. repeat split; try lia; Z.div_mod_to_equations; lia.
  - apply orb_false_iff in Hend. rewrite !Z.eqb_neq in Hend.
    set (leapyear := (n1 =? 3) && (negb (n4 =? 24) || (n100 =? 3))).
    set (Y := n400 * 400 + 1 + n100 * 100 + n4 * 4 + n1).
    assert (HL : is_leap Y = leapyear).
    { unfold is_leap, leapyear, Y.
      destruct (n1 =? 3) eqn:E1; destruct (n4 =? 24) eqn:E4;
        destruct (n100 =? 3) eqn:E100; simpl;
        rewrite ?Z.eqb_eq, ?Z.eqb_neq in *;
        repeat match goal with
               | |- context [?a =? 0] =>
                   let E := fresh "E" in
                   destruct (a =? 0) eqn:E; simpl;
                   rewrite ?Z.eqb_eq, ?Z.eqb_neq in E
               end; try reflexivity; exfalso; Z.div_mod_to_equations; lia. }
    assert (Hr4 : 0 <= r4 < 365 + (if leapyear then 1 else 0))
      by (destruct leapyear; lia).
    pose proof (month_day_spec r4 leapyear Hr4) as Hmd.
    unfold month_day_ok in Hmd.
    destruct (month_day r4 leapyear) as [m d]. cbn [fst snd].
    rewrite !andb_true_iff, !Z.leb_le, Z.eqb_eq in Hmd.
    unfold valid_date, days_in_month, ymd2ord. rewrite HL.
    unfold days_before_year.
    unfold Y. repeat split; try lia; Z.div_mod_to_equations; lia.
Qed.

Lemma ymd2ord_bounds (y m d : Z) :
  valid_date y m d ->
  days_before_year y < ymd2ord y m d <= days_before_year (y + 1).
Proof.
  unfold valid_date, days_in_month, ymd2ord. rewrite days_before_year_succ.
  intros [Hm Hd].
  assert (Hcases : m = 1 \/ m = 2 \/ m = 3 \/ m = 4 \/ m = 5 \/ m = 6 \/ m = 7
                   \/ m = 8 \/ m = 9 \/ m = 10 \/ m = 11 \/ m = 12) by lia.
  destruct (is_leap y);
    repeat (destruct Hcases as [->|Hcases]); try subst m; simpl in *; lia.
Qed.

Lemma ymd2ord_month_mono (y m1 d1 m2 d2 : Z) :
  valid_date y m1 d1 -> valid_date y m2 d2 -> m1 < m2 ->
  ymd2ord y m1 d1 < ymd2ord y m2 d2.
Proof.
  unfold valid_date, days_in_month, ymd2ord.
  intros [Hm1 Hd1] [Hm2 Hd2] Hlt.
  assert (H1 : m1 = 1 \/ m1 = 2 \/ m1 = 3 \/ m1 = 4 \/ m1 = 5 \/ m1 = 6 \/ m1 = 7
               \/ m1 = 8 \/ m1 = 9 \/ m1 = 10 \/ m1 = 11 \/ m1 = 12) by lia.
  assert (H2 : m2 = 1 \/ m2 = 2 \/ m2 = 3 \/ m2 = 4 \/ m2 = 5 \/ m2 = 6 \/ m2 = 7
               \/ m2 = 8 \/ m2 = 9 \/ m2 = 10 \/ m2 = 11 \/ m2 = 12) by lia.
  destruct (is_leap y);
    repeat (destruct H1 as [->|H1]); try subst m1;
    repeat (destruct H2 as [->|H2]); try subst m2;
    simpl in *; lia.
Qed.

(** Later dates have larger ordinals. *)
Lemma ymd2ord_lt (y1 m1 d1 y2 m2 d2 : Z) :
  valid_date y1 m1 d1 -> valid_date y2 m2 d2 ->
  date_lt (y1, m1, d1) (y2, m2, d2) ->
  ymd2ord y1 m1 d1 < ymd2ord y2 m2 d2.
Proof.
  intros V1 V2 [Hy|[-> [Hm|[-> Hd]]]].
  - pose proof (ymd2ord_bounds _ _ _ V1). pose proof (ymd2ord_bounds _ _ _ V2).
    pose proof (days_before_year_mono (y1 + 1) y2 ltac:(lia)). lia.
  - now apply ymd2ord_month_mono.
  - unfold ymd2ord. lia.
Qed.

(** Larger ordinals are later dates. *)
Lemma ord2ymd_lt (n1 n2 : Z) :
  1 <= n1 -> n1 < n2 -> n2 <= MAX_ORDINAL ->
  date_lt (ord2ymd n1) (ord2ymd n2).
Proof.
  intros H1 Hlt H2.
  pose proof (ord2ymd_spec n1 ltac:(lia)) as S1.
  pose proof (ord2ymd_spec n2 ltac:(lia)) as S2.
  destruct (ord2ymd n1) as [[y1 m1] d1], (ord2ymd n2) as [[y2 m2] d2].
  destruct S1 as (_ & V1 & E1), S2 as (_ & V2 & E2).
  assert (Hdec : date_lt (y1, m1, d1) (y2, m2, d2)
                 \/ (y1, m1, d1) = (y2, m2, d2)
                 \/ date_lt (y2, m2, d2) (y1, m1, d1)).
  { unfold date_lt.
    destruct (Z.lt_total y1 y2) as [?|[->|?]]; [tauto| |tauto].
    destruct (Z.lt_total m1 m2) as [?|[->|?]]; [tauto| |tauto].
    destruct (Z.lt_total d1 d2) as [?|[->|?]]; tauto. }
  destruct Hdec as [H|[H|H]]; [exact H| |].
  - inversion H; subst. lia.
  - pose proof (ymd2ord_lt _ _ _ _ _ _ V2 V1 H). lia.
Qed.

Local Open Scope string_scope.

Lemma ascii_compare_refl (c : ascii) : Ascii.compare c c = Eq.
Proof. unfold Ascii.compare. apply N.compare_refl. Qed.

Lemma compare_app (a b x y : string) :
  String.length a = String.length b ->
  String.compare (a ++ x) (b ++ y)
  = match String.compare a b with
    | Eq => String.compare x y
    | c => c
    end.
Proof.
  revert b. induction a as [|c a IH]; intros [|c' b]; simpl; try discriminate.
  - reflexivity.
  - intros H. injection H as H.
    destruct (Ascii.compare c c'); [apply IH, H|reflexivity|reflexivity].
Qed.

Lemma length_digits (w : nat) (n : Z) : String.length (digits w n) = w.
Proof.
  revert n. induction w as [|w IH]; intros n; simpl; [reflexivity|].
  assert (Happ : forall s t, String.length (s ++ t)
                             = (String.length s + String.length t)%nat).
  { induction s; simpl; intros; [reflexivity|now rewrite IHs]. }
  rewrite Happ, IH. simpl. lia.
Qed.

Lemma compare_digit (a b : Z) :
  Ascii.compare (digit a) (digit b) = (a mod 10 ?= b mod 10)%Z.
Proof.
  unfold digit.
  pose proof (Z.mod_pos_bound a 10 ltac:(lia)) as Ha.
  pose proof (Z.mod_pos_bound b 10 ltac:(lia)) as Hb.
  set (x := (a mod 10)%Z) in *. set (y := (b mod 10)%Z) in *.
  assert (Hx : x = 0 \/ x = 1 \/ x = 2 \/ x = 3 \/ x = 4 \/ x = 5 \/ x = 6
               \/ x = 7 \/ x = 8 \/ x = 9) by lia.
  assert (Hy : y = 0 \/ y = 1 \/ y = 2 \/ y = 3 \/ y = 4 \/ y = 5 \/ y = 6
               \/ y = 7 \/ y = 8 \/ y = 9) by lia.
  clearbody x y.
  repeat (destruct Hx as [->|Hx]); try subst x;
    repeat (destruct Hy as [->|Hy]); try subst y; reflexivity.
Qed.

(** Zero-padded numbers of one width compare as numbers. *)
Lemma compare_digits (w : nat) :
  forall n m : Z,
    (0 <= n < 10 ^ Z.of_nat w)%Z -> (0 <= m < 10 ^ Z.of_nat w)%Z ->
    String.compare (digits w n) (digits w m) = (n ?= m)%Z.
Proof.
  induction w as [|w IH]; intros n m Hn Hm.
  - simpl in *. assert (Hz : (n = 0 /\ m = 0)%Z) by lia.
    destruct Hz as [-> ->]. reflexivity.
  - rewrite Nat2Z.inj_succ, Z.pow_succ_r in Hn, Hm by lia.
    cbn [digits]. rewrite compare_app by now rewrite !length_digits.
    rewrite IH by (Z.div_mod_to_equations; lia).
    cbn [String.compare]. rewrite compare_digit.
    destruct (Z.compare_spec (n / 10) (m / 10));
      destruct (Z.compare_spec (n mod 10) (m mod 10));
      destruct (Z.compare_spec n m); try reflexivity;
      exfalso; Z.div_mod_to_equations; lia.
Qed.

(** A zero-padded field followed by a separator. *)
Lemma compare_field (w : nat) (a b : Z) (sep : ascii) (r1 r2 : string) :
  (0 <= a < 10 ^ Z.of_nat w)%Z -> (0 <= b < 10 ^ Z.of_nat w)%Z ->
  String.compare (digits w a ++ String sep r1) (digits w b ++ String sep r2)
  = match (a ?= b)%Z with
    | Eq => String.compare r1 r2
    | c => c
    end.
Proof.
  intros Ha Hb. rewrite compare_app by now rewrite !length_digits.
  rewrite compare_digits by assumption.
  destruct (a ?= b)%Z; try reflexivity.
  cbn [String.compare]. now rewrite ascii_compare_refl.
Qed.

(** The fraction is omitted for microsecond 0, and ["+"] sorts before
    ["."]: the ends compare as the microseconds do. *)
Lemma compare_iso_tail (us1 us2 : Z) :
  (0 <= us1 < us2)%Z -> (us2 < 1000000)%Z ->
  String.compare (iso_tail us1) (iso_tail us2) = Lt.
Proof.
  intros H1 H2. unfold iso_tail.
  replace (us2 =? 0)%Z with false by (symmetry; apply Z.eqb_neq; lia).
  destruct (us1 =? 0)%Z eqn:E.
  - reflexivity.
  - apply Z.eqb_neq in E.
    change (String.compare (String "." (digits 6 us1 ++ "+00:00"))
                           (String "." (digits 6 us2 ++ "+00:00")) = Lt).
    cbn [String.compare]. rewrite ascii_compare_refl.
    rewrite compare_app by now rewrite !length_digits.
    rewrite compare_digits by (simpl; lia).
    now replace (us1 ?= us2)%Z with Lt by (symmetry; apply Z.compare_lt_iff; lia).
Qed.

Local Open Scope Z_scope.

Lemma isoformat_unfold (t : Z) :
  isoformat t
  = let '(year, month, day) := ord2ymd (t / US_PER_DAY + 1) in
    let u := t mod US_PER_DAY in
    (digits 4 year ++ String "-" (digits 2 month ++ String "-" (digits 2 day
     ++ String "T" (digits 2 (u / US_PER_HOUR)
     ++ String ":" (digits 2 ((u / (60 * US_PER_SECOND)) mod 60)
     ++ String ":" (digits 2 ((u / US_PER_SECOND) mod 60)
     ++ iso_tail (u mod US_PER_SECOND)))))))%string.
Proof.
  unfold isoformat. now destruct (ord2ymd (t / US_PER_DAY + 1)) as [[y m] d].
Qed.

Lemma lex_step (a b : Z) (rest : comparison) :
  a < b \/ (a = b /\ rest = Lt) ->
  match a ?= b with
  | Eq => rest
  | c => c
  end = Lt.
Proof.
  intros [H|[-> H]].
  - now rewrite (proj2 (Z.compare_lt_iff a b) H).
  - now rewrite Z.compare_refl.
Qed.

Lemma days_in_month_le (y m : Z) : days_in_month y m <= 31.
Proof.
  unfold days_in_month.
  destruct ((m =? 2) && is_leap y) eqn:E.
  - apply andb_true_iff in E. destruct E as [E _].
    apply Z.eqb_eq in E. subst m. simpl. lia.
  - destruct m as [|p|p]; simpl; try lia.
    do 4 (destruct p as [p|p|]; simpl; try lia).
Qed.

(** The text order of ISO timestamps is the order of time. *)
Theorem isoformat_lt (t1 t2 : Z) :
  representable t1 = true -> representable t2 = true -> t1 < t2 ->
  String.compare (isoformat t1) (isoformat t2) = Lt.
Proof.
  unfold representable. rewrite !andb_true_iff, !Z.leb_le, !Z.ltb_lt.
  intros [L1 U1] [L2 U2] Hlt.
  rewrite !isoformat_unfold.
  unfold US_PER_DAY, US_PER_HOUR, US_PER_SECOND, MAX_ORDINAL in *.
  set (D1 := t1 / (24 * (3600 * 1000000))).
  set (u1 := t1 mod (24 * (3600 * 1000000))).
  set (D2 := t2 / (24 * (3600 * 1000000))).
  set (u2 := t2 mod (24 * (3600 * 1000000))).
  assert (E1 : t1 = 86400000000 * D1 + u1 /\ 0 <= u1 < 86400000000)
    by (unfold D1, u1; Z.div_mod_to_equations; lia).
  assert (E2 : t2 = 86400000000 * D2 + u2 /\ 0 <= u2 < 86400000000)
    by (unfold D2, u2; Z.div_mod_to_equations; lia).
  clearbody D1 u1 D2 u2.
  pose proof (ord2ymd_spec (D1 + 1) ltac:(unfold MAX_ORDINAL; lia)) as S1.
  pose proof (ord2ymd_spec (D2 + 1) ltac:(unfold MAX_ORDINAL; lia)) as S2.
  assert (Hdate : D1 < D2 -> date_lt (ord2ymd (D1 + 1)) (ord2ymd (D2 + 1))).
  { intros H. apply ord2ymd_lt; unfold MAX_ORDINAL; lia. }
  assert (Hsame : D1 = D2 -> ord2ymd (D1 + 1) = ord2ymd (D2 + 1))
    by (intros ->; reflexivity).
  destruct (ord2ymd (D1 + 1)) as [[y1 m1] d1].
  destruct (ord2ymd (D2 + 1)) as [[y2 m2] d2].
  destruct S1 as (Y1 & [M1 B1] & _), S2 as (Y2 & [M2 B2] & _).
  pose proof (days_in_month_le y1 m1). pose proof (days_in_month_le y2 m2).
  cbv zeta.
  set (H1 := u1 / (3600 * 1000000)). set (H2 := u2 / (3600 * 1000000)).
  set (Mi1 := (u1 / (60 * 1000000)) mod 60).
  set (Mi2 := (u2 / (60 * 1000000)) mod 60).
  set (Se1 := (u1 / 1000000) mod 60). set (Se2 := (u2 / 1000000) mod 60).
  set (us1 := u1 mod 1000000). set (us2 := u2 mod 1000000).
  assert (T1 : u1 = 3600000000 * H1 + 60000000 * Mi1 + 1000000 * Se1 + us1
               /\ 0 <= H1 < 24 /\ 0 <= Mi1 < 60 /\ 0 <= Se1 < 60
               /\ 0 <= us1 < 1000000)
    by (unfold H1, Mi1, Se1, us1; Z.div_mod_to_equations; lia).
  assert (T2 : u2 = 3600000000 * H2 + 60000000 * Mi2 + 1000000 * Se2 + us2
               /\ 0 <= H2 < 24 /\ 0 <= Mi2 < 60 /\ 0 <= Se2 < 60
               /\ 0 <= us2 < 1000000)
    by (unfold H2, Mi2, Se2, us2; Z.div_mod_to_equations; lia).
  clearbody H1 H2 Mi1 Mi2 Se1 Se2 us1 us2.
  rewrite !compare_field by (simpl; lia).
  rewrite compare_app by now rewrite !length_digits.
  rewrite compare_digits by (simpl; lia).
  destruct (Z.lt_total D1 D2) as [HD|[HD|HD]]; [| |lia].
  - specialize (Hdate HD). unfold date_lt in Hdate.
    apply lex_step.
    destruct Hdate as [Hy|[-> Hm]]; [now left|right; split; [reflexivity|]].
    apply lex_step.
    destruct Hm as [Hm|[-> Hd]]; [now left|right; split; [reflexivity|]].
    apply lex_step. now left.
  - specialize (Hsame HD). inversion Hsame; subst y2 m2 d2 D2.
    rewrite !Z.compare_refl.
    assert (Hu : u1 < u2) by lia.
    assert (Hlex : H1 < H2 \/ (H1 = H2 /\ (Mi1 < Mi2 \/ (Mi1 = Mi2 /\
                     (Se1 < Se2 \/ (Se1 = Se2 /\ us1 < us2)))))) by lia.
    apply lex_step.
    destruct Hlex as [?|[-> Hlex]]; [now left|right; split; [reflexivity|]].
    apply lex_step.
    destruct Hlex as [?|[-> Hlex]]; [now left|right; split; [reflexivity|]].
    apply lex_step.
    destruct Hlex as [?|[-> Hlex]]; [now left|right; split; [reflexivity|]].
    apply compare_iso_tail; lia.
Qed.

Lemma string_compare_refl (s : string) : String.compare s s = Eq.
Proof.
  induction s as [|c s IH]; simpl; [reflexivity|].
  now rewrite ascii_compare_refl.
Qed.

Corollary isoformat_leb (t1 t2 : Z) :
  representable t1 = true -> representable t2 = true ->
  String.leb (isoformat t1) (isoformat t2) = (t1 <=? t2).
Proof.
  intros R1 R2. unfold String.leb.
  destruct (Z.lt_total t1 t2) as [H|[H|H]].
  - rewrite (isoformat_lt t1 t2 R1 R2 H). symmetry. apply Z.leb_le. lia.
  - subst t2.
    rewrite string_compare_refl.
    symmetry. apply Z.leb_le. lia.
  - rewrite String.compare_antisym, (isoformat_lt t2 t1 R2 R1 H). simpl.
    symmetry. apply Z.leb_gt. lia.
Qed.

End TextOrder.

(* ================================================================== *)
(** ** The lookback of [get_data] *)

Section Lookback.

Import DateTime.

(** Lines 108-122, case by case. *)
Lemma query_rows_run (env : Env) (hours : Z) (w : World) :
  query_rows env hours w
  = if 0 <? hours then
      match timedelta_hours hours with
      | Raise e => (Raise e, clock_read w)
      | Ok delta =>
          match sub (utcnow env (clock_reads w)) delta with
          | Raise e => (Raise e, clock_read w)
          | Ok since =>
              match capacity_table (db w) with
              | None => (Raise OperationalError, clock_read w)
              | Some rows =>
                  (Ok (order_by
                         (filter (fun r => String.leb (isoformat since) (timestamp r))
                                 rows)),
                   clock_read w)
              end
          end
      end
    else
      match capacity_table (db w) with
      | None => (Raise OperationalError, w)
      | Some rows => (Ok (order_by rows), w)
      end.
Proof.
  unfold query_rows, bind at 1.
  destruct (0 <? hours).
  - unfold bind at 1, datetime_now. fold (clock_read w).
    unfold bind at 1, lift at 1.
    destruct (timedelta_hours hours) as [delta|e]; [|reflexivity].
    unfold bind at 1, lift at 1.
    destruct (sub (utcnow env (clock_reads w)) delta) as [since|e];
      [|reflexivity].
    unfold ret at 1. cbn [fst snd].
    unfold on_db, with_connection.
    change (db (clock_read w)) with (db w).
    destruct (capacity_table (db w)) as [rows|] eqn:Htab.
    + rewrite (select_since_run (connect (db w)) rows _ Htab). simpl.
      now rewrite <- (set_db_same (clock_read w)) at 2.
    + unfold execute_select, bind, prepare. simpl. rewrite Htab. simpl.
      now rewrite <- (set_db_same (clock_read w)) at 2.
  - unfold ret at 1. cbn [fst snd]. unfold on_db, with_connection.
    destruct (capacity_table (db w)) as [rows|] eqn:Htab.
    + rewrite (select_all_run (connect (db w)) rows Htab). simpl.
      now rewrite set_db_same.
    + unfold execute_select, bind, prepare. simpl. rewrite Htab. simpl.
      now rewrite set_db_same.
Qed.

(** The lookback filter where the lower bound can be computed: with a
    positive [hours] whose bound [now - hours] is a representable
    datetime, as [now] is, the rows returned are those whose timestamp is not below
    the ISO text of the bound, in order. *)
Lemma lookback_positive (env : Env) (hours : Z) (w : World) (rows : list Row) :
  capacity_table (db w) = Some rows ->
  0 < hours ->
  representable (utcnow env (clock_reads w)) = true ->
  representable (utcnow env (clock_reads w) - hours * US_PER_HOUR) = true ->
  fst (query_rows env hours w)
  = Ok (order_by
          (filter (fun r =>
                     String.leb
                       (isoformat (utcnow env (clock_reads w) - hours * US_PER_HOUR))
                       (timestamp r))
                  rows)).
Proof.
  intros Htab Hpos Hnow Hrep.
  rewrite query_rows_run.
  replace (0 <? hours) with true by (symmetry; now apply Z.ltb_lt).
  unfold timedelta_hours.
  assert (Hdays : (-999999999 <=? hours / 24) && (hours / 24 <=? 999999999) = true).
  { unfold representable in Hrep, Hnow.
    apply andb_true_iff in Hrep. destruct Hrep as [Hlo _].
    apply andb_true_iff in Hnow. destruct Hnow as [_ Hhi].
    apply Z.leb_le in Hlo. apply Z.ltb_lt in Hhi.
    unfold MAX_ORDINAL, US_PER_DAY, US_PER_HOUR, US_PER_SECOND in *.
    apply andb_true_iff. rewrite !Z.leb_le.
    pose proof (Z.div_mod hours 24 ltac:(lia)).
    pose proof (Z.mod_pos_bound hours 24 ltac:(lia)). lia. }
  rewrite Hdays. unfold sub. rewrite Hrep, Htab. reflexivity.
Qed.

(** With [hours <= 0] no bound is applied: the whole table is returned,
    in order, and the clock is not read. *)
Lemma lookback_non_positive (env : Env) (hours : Z) (w : World) (rows : list Row) :
  capacity_table (db w) = Some rows ->
  hours <= 0 ->
  query_rows env hours w = (Ok (order_by rows), w).
Proof.
  intros Htab Hle. rewrite query_rows_run.
  replace (0 <? hours) with false by (symmetry; apply Z.ltb_ge; lia).
  now rewrite Htab.
Qed.

(** With a lookback that reaches before year 1 the bound cannot be
    computed: OverflowError, from [timedelta] or from the subtraction. *)
Lemma lookback_overflow (env : Env) (hours : Z) (w : World) :
  0 < hours ->
  utcnow env (clock_reads w) < hours * US_PER_HOUR ->
  fst (query_rows env hours w) = Raise OverflowError.
Proof.
  intros Hpos Hnow. rewrite query_rows_run.
  replace (0 <? hours) with true by (symmetry; now apply Z.ltb_lt).
  unfold timedelta_hours.
  destruct ((-999999999 <=? hours / 24) && (hours / 24 <=? 999999999));
    [|reflexivity].
  unfold sub, representable.
  replace (0 <=? utcnow env (clock_reads w) - hours * US_PER_HOUR) with false
    by (symmetry; apply Z.leb_gt; lia).
  reflexivity.
Qed.

(** For rows stamped by the collector the filter is the one on
    instants: a row taken at [t] is returned exactly when [t] is not
    before [now - hours]. *)
Lemma lookback_positive_instants (env : Env) (hours : Z) (w : World)
    (rows result : list Row) :
  capacity_table (db w) = Some rows ->
  0 < hours ->
  representable (utcnow env (clock_reads w)) = true ->
  representable (utcnow env (clock_reads w) - hours * US_PER_HOUR) = true ->
  fst (query_rows env hours w) = Ok result ->
  forall (r : Row) (t : datetime),
    timestamp r = isoformat t ->
    representable t = true ->
    (In r result
     <-> In r rows /\ utcnow env (clock_reads w) - hours * US_PER_HOUR <= t).
Proof.
  intros Htab Hpos Hnow Hrep Hres r t Hts Ht.
  rewrite (lookback_positive env hours w rows Htab Hpos Hnow Hrep) in Hres.
  inversion Hres; subst result.
  split.
  - intros Hin.
    apply (Permutation_in _ (Permutation_sym (order_by_perm _))) in Hin.
    apply filter_In in Hin. destruct Hin as [Hin Hle]. split; [exact Hin|].
    rewrite Hts, (isoformat_leb _ _ Hrep Ht) in Hle. now apply Z.leb_le.
  - intros [Hin Hle].
    apply (Permutation_in _ (order_by_perm _)).
    apply filter_In. split; [exact Hin|].
    rewrite Hts, (isoformat_leb _ _ Hrep Ht). now apply Z.leb_le.
Qed.

(** The lookback on two samples taken 30 minutes and 2 hours before the
    query: one hour of lookback returns the first only, none returns
    both. *)
Example lookback_one_hour :
  let recent := {| timestamp := "2026-11-03T09:30:00+00:00"; location_id := SInt 260;
                   location_name := "Hannovergasse"; capacity := SInt 10 |} in
  let old := {| timestamp := "2026-11-03T08:00:00+00:00"; location_id := SInt 260;
                location_name := "Hannovergasse"; capacity := SInt 7 |} in
  let w := boot {| capacity_table := Some [old; recent];
                   idx_capacity_location_timestamp := true |} in
  fst (query_rows Scenario.healthy 1 w) = Ok [recent]
  /\ fst (query_rows Scenario.healthy 0 w) = Ok [old; recent].
Proof.
  split; vm_compute; reflexivity.
Qed.

Lemma get_data_run (env : Env) (p : hours_param) (w : World) :
  get_data env p w
  = match query_rows env (parse_hours p) w with
    | (Ok rows, w') => (Ok (group_rows rows), w')
    | (Raise e, w') => (Raise e, w')
    end.
Proof.
  unfold get_data, bind.
  now destruct (query_rows env (parse_hours p) w) as [[rows|e] w'].
Qed.

End Lookback.

(* ================================================================== *)
(** ** A run of the collector, then a query *)

Section RoundTrip.

Import DateTime.

Lemma insert_sample (env : Env) (ts : string) (location : json) (r : Row)
    (c : connection) (rows : list Row) :
  sample_of env ts location r ->
  capacity_table (pending c) = Some rows ->
  existsb (same_key r) rows = false ->
  insert_location env ts location c
  = (Ok tt, {| committed := committed c;
               pending := with_rows (rows ++ [r]) (pending c) |}).
Proof.
  intros (id & title & cap & idv & titlev & capv
          & Hid & Htitle & Hcap & Bid & Btitle & Bcap & Hr) Htab Hkey.
  unfold insert_location, execute_insert, bind, lift, prepare.
  rewrite Hid, Htitle, Hcap, Htab, Bid, Btitle, Bcap.
  cbn [new_row]. rewrite <- Hr, insert_row_run, Htab, Hkey. reflexivity.
Qed.

(** Entries whose rows have new keys are all inserted, in order. *)
Lemma insert_samples_loop (env : Env) (ts : string) (locations : list json)
    (batch : list Row) :
  Forall2 (sample_of env ts) locations batch ->
  forall (rows : list Row) (c : connection),
    capacity_table (pending c) = Some rows ->
    distinct_keys (rows ++ batch) = true ->
    exists c',
      for_each locations (insert_location env ts) c = (Ok tt, c')
      /\ committed c' = committed c
      /\ pending c' = store batch (pending c).
Proof.
  induction 1 as [|location r locations batch Hr _ IH]; intros rows c Htab Hd.
  - exists c. now repeat split.
  - simpl for_each. unfold bind at 1.
    rewrite (insert_sample env ts location r c rows Hr Htab
               (distinct_keys_middle _ _ _ Hd)).
    destruct (IH (rows ++ [r])
                {| committed := committed c;
                   pending := with_rows (rows ++ [r]) (pending c) |})
      as (c' & Hrun & Hc & Hp); [reflexivity| |].
    + now rewrite <- app_assoc.
    + exists c'. rewrite Hrun. repeat split; [exact Hc|].
      rewrite Hp. cbn [pending].
      replace rows with (rows_of (pending c))
        by (unfold rows_of; now rewrite Htab).
      apply store_cons.
Qed.

(** A run that reaches the loop with entries whose rows have new keys
    stores them all and prints nothing. *)
Lemma tick_stores_samples (env : Env) (w : World) (locations : list json)
    (batch : list Row) :
  reaches_loop env w locations ->
  Forall2 (sample_of env (tick_timestamp env w)) locations batch ->
  capacity_table (db w) <> None ->
  distinct_keys (rows_of (db w) ++ batch) = true ->
  fetch_and_store env w
  = (Ok tt, set_db (store batch (db w)) (clock_read (requested w))).
Proof.
  intros (fields & status & Hans & Hstatus & Hone & Hdata) Hbatch Htab Hd.
  destruct (capacity_table (db w)) as [rows|] eqn:Hrows; [|congruence].
  unfold fetch_and_store, try_except.
  rewrite (fetch_and_store_try_run env w fields Hans).
  unfold status_of. rewrite Hstatus, Hone.
  rewrite (store_samples_run _ _ _ _ _ Hdata).
  change (db (set_clock_reads (S (clock_reads w)) (requested w))) with (db w).
  destruct (insert_samples_loop env (tick_timestamp env w) locations batch
              Hbatch rows (connect (db w)) Hrows)
    as (c' & Hrun & _ & Hp).
  { unfold rows_of in Hd. now rewrite Hrows in Hd. }
  rewrite Hrun, Hp. reflexivity.
Qed.

(** The SELECT on a table whose rows all carry the timestamp of the
    instant [t], with no bound or with a bound before [t], returns all
    the rows, ordered. *)
Lemma query_rows_all (env : Env) (hours : Z) (w : World) (rows : list Row)
    (t : datetime) :
  capacity_table (db w) = Some rows ->
  Forall (fun r => timestamp r = isoformat t) rows ->
  bound_before env hours w t ->
  fst (query_rows env hours w) = Ok (order_by rows).
Proof.
  intros Htab Hts [Hle|(Hpos & Hnow & Hsince & Ht & Hlt)].
  - now rewrite (lookback_non_positive env hours w rows Htab Hle).
  - unfold lower_bound in *.
    rewrite (lookback_positive env hours w rows Htab Hpos Hnow Hsince).
    rewrite filter_all; [reflexivity|].
    eapply Forall_impl; [|exact Hts]. intros r Hr. cbv beta in *.
    rewrite Hr, (isoformat_leb _ _ Hsince Ht). apply Z.leb_le. lia.
Qed.

End RoundTrip.

(** C2. Round-trip.  A run of [fetch_and_store] on the empty table that
    reaches the INSERT loop with entries whose samples have pairwise
    distinct (timestamp, location_id) keys stores exactly that batch and
    prints nothing.  The SELECT of [get_data], made in any state with
    the database the run left, with no bound ([hours <= 0]) or with a
    bound earlier than the timestamp of the batch, then returns exactly
    that batch (a permutation of it), in ascending order of
    (timestamp, location_id), and [get_data] answers with the grouping
    of these rows. *)
Theorem C2_round_trip (env : Env) (w w' : World) (locations : list json)
    (batch : list Row) (hours : Z) :
  capacity_table (db w) = Some [] ->
  reaches_loop env w locations ->
  Forall2 (sample_of env (tick_timestamp env w)) locations batch ->
  distinct_keys batch = true ->
  db w' = db (snd (fetch_and_store env w)) ->
  bound_before env hours w' (utcnow env (clock_reads w)) ->
  stdout (snd (fetch_and_store env w)) = stdout w
  /\ capacity_table (db (snd (fetch_and_store env w))) = Some batch
  /\ exists rows,
       fst (query_rows env hours w') = Ok rows
       /\ Permutation batch rows
       /\ Sorted row_le rows
       /\ fst (get_data env (IntLiteral hours) w') = Ok (group_rows rows).
Proof.
  intros Hempty Hloop Hbatch Hdist Hdb Hbound.
  assert (Hrun : fetch_and_store env w
                 = (Ok tt, set_db (store batch (db w)) (clock_read (requested w)))).
  { apply (tick_stores_samples env w locations batch Hloop Hbatch).
    - rewrite Hempty. discriminate.
    - unfold rows_of. now rewrite Hempty. }
  rewrite Hrun in *. cbn [snd db set_db stdout clock_read requested
                         set_clock_reads set_requests_sent] in *.
  assert (Htab : capacity_table (store batch (db w)) = Some batch).
  { unfold store, with_rows, rows_of. rewrite Hempty.
    destruct batch; [exact Hempty|reflexivity]. }
  split; [reflexivity|]. split; [exact Htab|].
  assert (Hts : Forall (fun r => timestamp r
                                 = DateTime.isoformat (utcnow env (clock_reads w)))
                      batch).
  { clear - Hbatch. induction Hbatch as [|l r ls rs Hlr _ IH]; constructor.
    - exact (sample_of_timestamp _ _ _ _ Hlr).
    - exact IH. }
  rewrite <- Hdb in Htab.
  pose proof (query_rows_all env hours w' batch _ Htab Hts Hbound) as Hq.
  exists (order_by batch).
  split; [exact Hq|]. split; [apply order_by_perm|].
  split; [apply order_by_Sorted|].
  rewrite get_data_run. cbn [parse_hours].
  destruct (query_rows env hours w') as [[rows|e] w''];
    cbn [fst] in *; congruence.
Qed.

Lemma C2_round_trip_witness :
  let w := Scenario.initialised in
  let w' := snd (fetch_and_store Scenario.busy w) in
  let ts := "2026-11-03T10:00:00+00:00" in
  let batch := [Scenario.sample ts 261 "Wienerberg" 5;
                Scenario.sample ts 260 "Hannovergasse" 10] in
  capacity_table (db w) = Some []
  /\ reaches_loop Scenario.busy w Scenario.two_locations
  /\ Forall2 (sample_of Scenario.busy (tick_timestamp Scenario.busy w))
       Scenario.two_locations batch
  /\ distinct_keys batch = true
  /\ db w' = db (snd (fetch_and_store Scenario.busy w))
  /\ bound_before Scenario.busy 1 w' (utcnow Scenario.busy (clock_reads w))
  /\ capacity_table (db w') = Some batch
  /\ exists rows,
       fst (query_rows Scenario.busy 1 w') = Ok rows
       /\ Permutation batch rows
       /\ Sorted row_le rows
       /\ fst (get_data Scenario.busy (IntLiteral 1) w') = Ok (group_rows rows).
Proof.
  intros w w' ts batch.
  assert (H1 : capacity_table (db w) = Some []) by reflexivity.
  assert (H2 : reaches_loop Scenario.busy w Scenario.two_locations).
  { exists [("status", JInt 1); ("data", JList Scenario.two_locations)], (JInt 1).
    repeat split. exists 200. split; [reflexivity|lia]. }
  assert (H3 : Forall2 (sample_of Scenario.busy (tick_timestamp Scenario.busy w))
                 Scenario.two_locations batch).
  { constructor; [|constructor; [|constructor]].
    - exists (JInt 261), (JStr "Wienerberg"), (JInt 5),
        (SInt 261), (SText "Wienerberg"), (SInt 5).
      repeat split; vm_compute; reflexivity.
    - exists (JInt 260), (JStr "Hannovergasse"), (JInt 10),
        (SInt 260), (SText "Hannovergasse"), (SInt 10).
      repeat split; vm_compute; reflexivity. }
  assert (H4 : distinct_keys batch = true) by reflexivity.
  assert (H5 : db w' = db (snd (fetch_and_store Scenario.busy w)))
    by reflexivity.
  assert (H6 : bound_before Scenario.busy 1 w'
                 (utcnow Scenario.busy (clock_reads w))).
  { right. vm_compute. repeat split; reflexivity. }
  repeat (split; [assumption|]).
  exact (proj2 (C2_round_trip Scenario.busy w w' Scenario.two_locations batch 1
                  H1 H2 H3 H4 H5 H6)).
Defined.

(* ================================================================== *)
(** ** Activation of the scheduler *)

Section Activation.

Lemma initialise_idempotent (d : Database) :
  initialise (initialise d) = initialise d.
Proof. reflexivity. Qed.

Lemma init_db_run (w : World) :
  init_db w = (Ok tt, set_db (initialise (db w)) w).
Proof.
  unfold init_db, on_db, with_connection, bind, create_table_if_not_exists,
    create_index_if_not_exists, commit, modify, initialise, rows_of.
  cbn [connect committed pending fst snd].
  destruct (capacity_table (db w)) as [rows|] eqn:Htab; cbn; rewrite ?Htab;
    reflexivity.
Qed.

(** What a run of [fetch_and_store] never changes, and what it always
    does: it returns normally, sends exactly one request, reads the clock
    at most once and leaves the scheduler alone. *)
Lemma fetch_and_store_frame (env : Env) (w : World) :
  fst (fetch_and_store env w) = Ok tt
  /\ requests_sent (snd (fetch_and_store env w)) = S (requests_sent w)
  /\ (clock_reads (snd (fetch_and_store env w)) <= S (clock_reads w))%nat
  /\ scheduler_running (snd (fetch_and_store env w)) = scheduler_running w
  /\ scheduler_jobs (snd (fetch_and_store env w)) = scheduler_jobs w
  /\ scheduler_started (snd (fetch_and_store env w)) = scheduler_started w.
Proof.
  unfold fetch_and_store, try_except, fetch_and_store_try, bind,
    requests_get, raise_for_status, response_json, lift, datetime_now,
    raise, ret, print_error, modify.
  destruct (remote env (requests_sent w)) as [e|r]; simpl.
  { repeat split. lia. }
  destruct ((400 <=? status_code r) && (status_code r <? 600)); simpl.
  { repeat split. lia. }
  destruct (body r) as [data|]; simpl; [|repeat split; lia].
  destruct (get data "status") as [status|e]; simpl; [|repeat split; lia].
  destruct (eq_one status); simpl; [|repeat split; lia].
  unfold store_samples, on_db. simpl.
  match goal with
  | |- context [with_connection ?m ?d] =>
      destruct (with_connection m d) as [[[]|e] d']
  end; simpl; repeat split; lia.
Qed.

(** A second call of [start_scheduler] arms no second timer and leaves
    the schema as it is, but it does fetch again. *)
Lemma start_scheduler_again (env : Env) (w : World) :
  scheduler_running w = true ->
  scheduler_jobs (snd (start_scheduler env w)) = scheduler_jobs w
  /\ scheduler_running (snd (start_scheduler env w)) = true
  /\ requests_sent (snd (start_scheduler env w)) = S (requests_sent w).
Proof.
  intros Hrun. unfold start_scheduler, bind. rewrite init_db_run.
  set (w1 := set_db (initialise (db w)) w).
  destruct (fetch_and_store_frame env w1) as (Hok & Hsent & _ & Hr & Hj & _).
  destruct (fetch_and_store env w1) as [res w2]. cbn [fst snd] in *. subst res.
  unfold gets.
  assert (Hrun2 : scheduler_running w2 = true) by (rewrite Hr; exact Hrun).
  rewrite Hrun2. cbn. now rewrite Hj, Hsent, Hrun2.
Qed.

(** Once the flag is set, the hook before each request does nothing. *)
Lemma ensure_started_again (env : Env) (w : World) :
  scheduler_started w = true ->
  _ensure_scheduler_started env w = (Ok tt, w).
Proof.
  intros H. unfold _ensure_scheduler_started, bind, gets. now rewrite H.
Qed.

(** [start_scheduler] does not set the flag that the hook tests. *)
Lemma start_scheduler_flag (env : Env) (w : World) :
  scheduler_started (snd (start_scheduler env w)) = scheduler_started w.
Proof.
  unfold start_scheduler, bind. rewrite init_db_run.
  set (w1 := set_db (initialise (db w)) w).
  destruct (fetch_and_store_frame env w1) as (Hok & _ & _ & _ & _ & Hs).
  destruct (fetch_and_store env w1) as [res w2]. cbn [fst snd] in *. subst res.
  unfold gets. destruct (negb (scheduler_running w2)); cbn; exact Hs.
Qed.

End Activation.

(* ================================================================== *)
(** ** Where the code departs from the specification *)

(** C4 (evaluation at the failing input). With [hours = 20000000] and a
    clock in 2026 the bound [now - hours] lies before year 1: the query
    raises OverflowError instead of returning the stored sample, whose
    timestamp is later than any such bound. *)
Theorem C4_lookback_overflow :
  rows_of (db Scenario.one_stored) = [Scenario.one_row]
  /\ fst (query_rows Scenario.healthy 20000000 Scenario.one_stored)
     = Raise OverflowError
  /\ fst (query_rows Scenario.healthy 1 Scenario.one_stored)
     = Ok [Scenario.one_row]
  /\ fst (query_rows Scenario.healthy 0 Scenario.one_stored)
     = Ok [Scenario.one_row].
Proof.
  repeat split; vm_compute; reflexivity.
Qed.

(** C8 (evaluation at the failing input). The process is started
    eagerly, as under [__main__], and then serves its first request:
    [start_scheduler] leaves [scheduler_started] unset, so the hook calls
    it again while the scheduler is running.  No second timer is armed
    and the schema stays, but a second request is sent and a second batch
    is stored. *)
Theorem C8_second_activation_fetches_again :
  let w1 := snd (start_scheduler Scenario.healthy (boot no_database)) in
  let w2 := snd (_ensure_scheduler_started Scenario.healthy w1) in
  scheduler_running w1 = true
  /\ scheduler_started w1 = false
  /\ (scheduler_jobs w1, scheduler_jobs w2) = (1%nat, 1%nat)
  /\ (idx_capacity_location_timestamp (db w1),
      idx_capacity_location_timestamp (db w2)) = (true, true)
  /\ (requests_sent w1, requests_sent w2) = (1%nat, 2%nat)
  /\ (List.length (rows_of (db w1)), List.length (rows_of (db w2)))
     = (1%nat, 2%nat).
Proof.
  repeat split; vm_compute; reflexivity.
Qed.

(** C9 (evaluation at the failing input). [GET /api/data?hours=20000000]
    with a clock in 2026: the subtraction [now - timedelta(hours=hours)]
    raises OverflowError, which nothing in [get_data] catches, so the
    request ends in an error instead of a 200 answer. *)
Theorem C9_large_hours_raises :
  0 < 20000000
  /\ fst (get_data Scenario.healthy (IntLiteral 20000000) Scenario.one_stored)
     = Raise OverflowError
  /\ fst (serve_api_data Scenario.healthy (IntLiteral 20000000) (boot no_database))
     = Raise OverflowError.
Proof.
  repeat split; vm_compute; reflexivity.
Qed.

(* ================================================================== *)
(** ** Every run of the collector *)

Section EveryRun.

(** [fetch_and_store] by the way it leaves its first lines. *)
Lemma fetch_and_store_gate (env : Env) (w : World) :
  fetch_and_store env w
  = match gate_of (remote env (requests_sent w)) with
    | Fails e => (Ok tt, set_stdout (stdout w ++ [e]) (requested w))
    | Skips => (Ok tt, requested w)
    | Proceeds data =>
        try_except (store_samples env (tick_timestamp env w) data) print_error
          (clock_read (requested w))
    end.
Proof.
  unfold fetch_and_store, try_except at 1, fetch_and_store_try, gate_of, bind,
    requests_get, raise_for_status, response_json, lift, datetime_now,
    raise, ret.
  destruct (remote env (requests_sent w)) as [e|r]; [reflexivity|].
  destruct ((400 <=? status_code r) && (status_code r <? 600)); [reflexivity|].
  destruct (body r) as [data|]; [|reflexivity].
  destruct (get data "status") as [status|e]; [|reflexivity].
  destruct (eq_one status); reflexivity.
Qed.

Lemma distinct_keys_snoc (rows : list Row) (r : Row) :
  distinct_keys rows = true ->
  existsb (same_key r) rows = false ->
  distinct_keys (rows ++ [r]) = true.
Proof.
  induction rows as [|a rows IH]; simpl; [reflexivity|].
  rewrite andb_true_iff, negb_true_iff, orb_false_iff.
  intros [Ha Hrows] [Hra Hr].
  rewrite existsb_app, Ha. simpl. rewrite same_key_sym, Hra. simpl.
  now apply IH.
Qed.

(** The loop keeps the keys of the open transaction pairwise distinct. *)
Lemma insert_loop_distinct (env : Env) (ts : string) (locations : list json) :
  forall (c c' : connection) (res : result unit),
    for_each locations (insert_location env ts) c = (res, c') ->
    distinct_keys (rows_of (pending c)) = true ->
    distinct_keys (rows_of (pending c')) = true.
Proof.
  induction locations as [|location locations IH]; intros c c' res; simpl.
  - unfold ret. intros H. now inversion H.
  - unfold bind at 1.
    destruct (insert_location env ts location c) as [[[]|e] c1] eqn:H1.
    + apply insert_location_inv in H1.
      destruct H1 as (r & _ & _ & Hfresh & Hp).
      intros H Hd. apply (IH _ _ _ H). rewrite Hp, rows_of_with_rows.
      now apply distinct_keys_snoc.
    + apply insert_location_inv in H1. subst c1.
      intros H. now inversion H.
Qed.

(** What the [with] block does to the database, whatever the body it is
    given: it adds a batch of rows stamped [ts], or nothing if it raises. *)
Lemma store_samples_effect (env : Env) (ts : string) (data : json) (w : World) :
  exists batch,
    snd (store_samples env ts data w) = set_db (store batch (db w)) w
    /\ Forall (fun r => timestamp r = ts) batch
    /\ (fst (store_samples env ts data w) = Ok tt \/ batch = [])
    /\ (distinct_keys (rows_of (db w)) = true ->
        distinct_keys (rows_of (db w) ++ batch) = true).
Proof.
  assert (Hnone : exists batch : list Row,
            w = set_db (store batch (db w)) w
            /\ Forall (fun r => timestamp r = ts) batch
            /\ batch = []
            /\ (distinct_keys (rows_of (db w)) = true ->
                distinct_keys (rows_of (db w) ++ batch) = true)).
  { exists []. simpl. rewrite set_db_same, app_nil_r. now repeat split. }
  destruct Hnone as (b0 & N1 & N2 & N3 & N4).
  unfold store_samples, on_db, with_connection, bind, lift.
  destruct (getitem data "data") as [v|e]; simpl;
    [|exists b0; rewrite set_db_same; auto].
  destruct (iter v) as [locations|e]; simpl;
    [|exists b0; rewrite set_db_same; auto].
  destruct (for_each locations (insert_location env ts) (connect (db w)))
    as [[[]|e] c] eqn:Hloop; simpl.
  - pose proof (insert_loop_distinct _ _ _ _ _ _ Hloop) as Hd.
    apply insert_loop_inv in Hloop.
    destruct Hloop as (_ & batch & Hbatch & Hp). simpl in Hp, Hd.
    exists batch. rewrite Hp. split; [reflexivity|]. split.
    + clear Hp Hd. induction Hbatch as [|l r ls rs Hlr _ IH]; constructor.
      * exact (sample_of_timestamp _ _ _ _ Hlr).
      * exact IH.
    + split; [now left|]. intros H. specialize (Hd H).
      now rewrite Hp, rows_of_store in Hd.
  - apply insert_loop_inv in Hloop. destruct Hloop as [Hc _].
    simpl in Hc. rewrite Hc. exists b0. rewrite set_db_same. auto.
Qed.

(** No row is inserted where there is no table. *)
Lemma insert_location_no_table (env : Env) (ts : string) (location : json)
    (c : connection) :
  capacity_table (pending c) = None ->
  fst (insert_location env ts location c) <> Ok tt.
Proof.
  intros Htab.
  unfold insert_location, execute_insert, bind, lift, prepare.
  destruct (getitem location "id"); [|discriminate].
  destruct (getitem location "title"); [|discriminate].
  destruct (getitem location "capacity"); [|discriminate].
  rewrite Htab. discriminate.
Qed.

Lemma store_samples_no_table (env : Env) (ts : string) (data : json) (w : World) :
  capacity_table (db w) = None ->
  db (snd (store_samples env ts data w)) = db w.
Proof.
  intros Htab.
  unfold store_samples, on_db, with_connection, bind, lift.
  destruct (getitem data "data") as [v|e]; [|reflexivity].
  destruct (iter v) as [[|location locations]|e]; [reflexivity| |reflexivity].
  simpl for_each. unfold bind at 1.
  pose proof (insert_location_no_table env ts location (connect (db w)) Htab) as Hno.
  destruct (insert_location env ts location (connect (db w))) as [[[]|e] c] eqn:E.
  - now elim Hno.
  - apply insert_location_inv in E. subst c. reflexivity.
Qed.

(** The effect of a run on the database and on what is printed. *)
Lemma fetch_and_store_effect (env : Env) (w : World) :
  exists batch,
    db (snd (fetch_and_store env w)) = store batch (db w)
    /\ Forall (fun r => timestamp r = tick_timestamp env w) batch
    /\ (stdout (snd (fetch_and_store env w)) = stdout w \/ batch = [])
    /\ (capacity_table (db w) = None -> batch = [])
    /\ (distinct_keys (rows_of (db w)) = true ->
        distinct_keys (rows_of (db w) ++ batch) = true).
Proof.
  rewrite fetch_and_store_gate.
  destruct (gate_of (remote env (requests_sent w))) as [e| |data].
  - exists []. repeat split; auto; now rewrite app_nil_r.
  - exists []. repeat split; auto; now rewrite app_nil_r.
  - unfold try_except.
    set (w1 := clock_read (requested w)).
    destruct (store_samples_effect env (tick_timestamp env w) data w1)
      as (batch & Hs & Hts & Hok & Hd).
    pose proof (store_samples_no_table env (tick_timestamp env w) data w1) as Hnt.
    destruct (store_samples env (tick_timestamp env w) data w1)
      as [[[]|e] w2]; cbn [fst snd] in *.
    + exists batch. subst w2. repeat split; auto.
      intros Htab. specialize (Hnt Htab). cbn in Hnt.
      destruct batch as [|r batch]; [reflexivity|].
      exfalso. apply (f_equal capacity_table) in Hnt.
      cbn in Hnt. change (capacity_table (db w1)) with (capacity_table (db w)) in Hnt.
      rewrite Htab in Hnt. discriminate.
    + destruct Hok as [Hok | ->]; [discriminate|].
      exists []. subst w2. repeat split; auto; now rewrite app_nil_r.
Qed.

End EveryRun.

(** X1. [init_db] returns normally on every database; afterwards the
    table and the index exist and the table holds the rows it held; a
    second call changes nothing; nothing but the database is touched. *)
Theorem X1_init_db_idempotent (w : World) :
  fst (init_db w) = Ok tt
  /\ capacity_table (db (snd (init_db w))) = Some (rows_of (db w))
  /\ idx_capacity_location_timestamp (db (snd (init_db w))) = true
  /\ init_db (snd (init_db w)) = (Ok tt, snd (init_db w))
  /\ snd (init_db w) = set_db (db (snd (init_db w))) w.
Proof.
  rewrite init_db_run. cbn [fst snd]. repeat split.
Qed.

(** X2. A run of [fetch_and_store] never lets an exception out, whatever
    the API answers and whatever the database holds; it sends exactly
    one request, reads the clock at most once, and leaves the scheduler
    and the activation flag alone. *)
Theorem X2_fetch_and_store_never_raises (env : Env) (w : World) :
  fst (fetch_and_store env w) = Ok tt
  /\ requests_sent (snd (fetch_and_store env w)) = S (requests_sent w)
  /\ (clock_reads (snd (fetch_and_store env w)) <= S (clock_reads w))%nat
  /\ scheduler_running (snd (fetch_and_store env w)) = scheduler_running w
  /\ scheduler_jobs (snd (fetch_and_store env w)) = scheduler_jobs w
  /\ scheduler_started (snd (fetch_and_store env w)) = scheduler_started w.
Proof.
  exact (fetch_and_store_frame env w).
Qed.

(** X3. A run of [fetch_and_store] only ever appends: the table
    afterwards is the table before followed by a batch of rows that all
    carry the timestamp of the run; the index is as before and no table
    is created; and when the run prints an error the batch is empty. *)
Theorem X3_fetch_and_store_appends (env : Env) (w : World) :
  exists batch,
    rows_of (db (snd (fetch_and_store env w))) = rows_of (db w) ++ batch
    /\ Forall (fun r => timestamp r = tick_timestamp env w) batch
    /\ idx_capacity_location_timestamp (db (snd (fetch_and_store env w)))
       = idx_capacity_location_timestamp (db w)
    /\ (capacity_table (db w) = None
        <-> capacity_table (db (snd (fetch_and_store env w))) = None)
    /\ (stdout (snd (fetch_and_store env w)) = stdout w \/ batch = []).
Proof.
  destruct (fetch_and_store_effect env w) as (batch & Hdb & Hts & Hout & Hnt & _).
  exists batch. rewrite Hdb.
  split; [apply rows_of_store|]. split; [exact Hts|].
  split; [now destruct batch|]. split; [|exact Hout].
  split.
  - intros Htab. now rewrite (Hnt Htab).
  - destruct batch; [auto|discriminate].
Qed.

(** X4. A run of [fetch_and_store] keeps the primary key: when no two
    rows of the table agree on (timestamp, location_id) before the run,
    no two do after it. *)
Theorem X4_fetch_and_store_keeps_primary_key (env : Env) (w : World) :
  distinct_keys (rows_of (db w)) = true ->
  distinct_keys (rows_of (db (snd (fetch_and_store env w)))) = true.
Proof.
  intros Hd.
  destruct (fetch_and_store_effect env w) as (batch & Hdb & _ & _ & _ & Hk).
  rewrite Hdb, rows_of_store. exact (Hk Hd).
Qed.

Lemma X4_fetch_and_store_keeps_primary_key_witness :
  distinct_keys (rows_of (db Scenario.one_stored)) = true
  /\ distinct_keys
       (rows_of (db (snd (fetch_and_store Scenario.healthy Scenario.one_stored))))
     = true.
Proof.
  split; [reflexivity|].
  exact (X4_fetch_and_store_keeps_primary_key Scenario.healthy
           Scenario.one_stored eq_refl).
Defined.

(* ================================================================== *)
(** ** Ticks that succeed *)

Section Success.

Lemma insert_documented (env : Env) (ts : string) (location : json)
    (entry : Z * string * Z) (c : connection) (rows : list Row) :
  documented_entry location = Some entry ->
  capacity_table (pending c) = Some rows ->
  existsb (same_key (row_at ts entry)) rows = false ->
  insert_location env ts location c
  = (Ok tt, {| committed := committed c;
               pending := with_rows (rows ++ [row_at ts entry]) (pending c) |}).
Proof.
  unfold documented_entry, insert_location, execute_insert, bind, lift, prepare.
  destruct (getitem location "id") as [[| | id | | | |]|]; try discriminate.
  destruct (getitem location "title") as [[| | | | title | |]|]; try discriminate.
  destruct (getitem location "capacity") as [[| | cap | | | |]|]; try discriminate.
  unfold int64. simpl bind_param.
  destruct ((INT64_MIN <=? id) && (id <=? INT64_MAX)); [|discriminate].
  destruct ((INT64_MIN <=? cap) && (cap <=? INT64_MAX)); [|discriminate].
  simpl. intros H Htab Hkey. inversion H; subst entry.
  rewrite Htab. rewrite insert_row_run, Htab.
  unfold row_at in Hkey. cbn [fst snd] in Hkey. rewrite Hkey. reflexivity.
Qed.

(** Documented entries whose keys are new are all inserted, in order. *)
Lemma insert_documented_loop (env : Env) (ts : string) (locations : list json) :
  forall (entries : list (Z * string * Z)) (rows : list Row) (c : connection),
    map documented_entry locations = map Some entries ->
    capacity_table (pending c) = Some rows ->
    distinct_keys (rows ++ map (row_at ts) entries) = true ->
    exists c',
      for_each locations (insert_location env ts) c = (Ok tt, c')
      /\ committed c' = committed c
      /\ pending c' = store (map (row_at ts) entries) (pending c).
Proof.
  induction locations as [|location locations IH];
    intros [|entry entries] rows c Hmap Htab Hd; try discriminate.
  - exists c. now repeat split.
  - simpl in Hmap. injection Hmap as Hr Hmap.
    simpl for_each. unfold bind at 1. cbn [map] in Hd |- *.
    rewrite (insert_documented env ts location entry c rows Hr Htab
               (distinct_keys_middle _ _ _ Hd)).
    destruct (IH entries (rows ++ [row_at ts entry])
                {| committed := committed c;
                   pending := with_rows (rows ++ [row_at ts entry]) (pending c) |})
      as (c' & Hrun & Hc & Hp); [exact Hmap|reflexivity| |].
    + now rewrite <- app_assoc.
    + exists c'. rewrite Hrun. repeat split; [exact Hc|].
      rewrite Hp. cbn [pending].
      replace rows with (rows_of (pending c))
        by (unfold rows_of; now rewrite Htab).
      apply store_cons.
Qed.

(** A run that reaches the loop with documented entries whose keys are
    new stores them all and prints nothing. *)
Lemma tick_stores_documented (env : Env) (w : World)
    (locations : list json) (entries : list (Z * string * Z)) :
  reaches_loop env w locations ->
  map documented_entry locations = map Some entries ->
  capacity_table (db w) <> None ->
  distinct_keys (rows_of (db w) ++ map (row_at (tick_timestamp env w)) entries)
  = true ->
  fetch_and_store env w
  = (Ok tt,
     set_db (store (map (row_at (tick_timestamp env w)) entries) (db w))
       (clock_read (requested w))).
Proof.
  intros (fields & status & Hans & Hstatus & Hone & Hdata) Hmap Htab Hd.
  destruct (capacity_table (db w)) as [rows|] eqn:Hrows; [|congruence].
  unfold fetch_and_store, try_except.
  rewrite (fetch_and_store_try_run env w fields Hans).
  unfold status_of. rewrite Hstatus, Hone.
  rewrite (store_samples_run _ _ _ _ _ Hdata).
  change (db (set_clock_reads (S (clock_reads w)) (requested w))) with (db w).
  destruct (insert_documented_loop env (tick_timestamp env w) locations
              entries rows (connect (db w)) Hmap Hrows)
    as (c' & Hrun & _ & Hp).
  { unfold rows_of in Hd. now rewrite Hrows in Hd. }
  rewrite Hrun, Hp. reflexivity.
Qed.

End Success.

(** X5. When a run of [fetch_and_store] reaches the INSERT loop, every
    entry has the documented shape with 64-bit integers, the table
    exists, and the keys of the table and of the new rows together are
    pairwise distinct, the run stores exactly the rows of the entries, in
    order and under its timestamp, prints nothing and returns normally. *)
Theorem X5_tick_stores_documented_batch (env : Env) (w : World)
    (locations : list json) (entries : list (Z * string * Z)) :
  reaches_loop env w locations ->
  map documented_entry locations = map Some entries ->
  capacity_table (db w) <> None ->
  distinct_keys (rows_of (db w) ++ map (row_at (tick_timestamp env w)) entries)
  = true ->
  fst (fetch_and_store env w) = Ok tt
  /\ rows_of (db (snd (fetch_and_store env w)))
     = rows_of (db w) ++ map (row_at (tick_timestamp env w)) entries
  /\ stdout (snd (fetch_and_store env w)) = stdout w.
Proof.
  intros H1 H2 H3 H4.
  rewrite (tick_stores_documented env w locations entries H1 H2 H3 H4).
  cbn [fst snd]. split; [reflexivity|]. split; [|reflexivity].
  apply rows_of_store.
Qed.

Lemma X5_tick_stores_documented_batch_witness :
  let env := Scenario.busy in
  let w := Scenario.after_one_tick in
  let entries := [(261, "Wienerberg", 5); (260, "Hannovergasse", 10)] in
  reaches_loop env w Scenario.two_locations
  /\ map documented_entry Scenario.two_locations = map Some entries
  /\ capacity_table (db w) <> None
  /\ distinct_keys (rows_of (db w) ++ map (row_at (tick_timestamp env w)) entries)
     = true
  /\ fst (fetch_and_store env w) = Ok tt
  /\ rows_of (db (snd (fetch_and_store env w)))
     = [Scenario.one_row;
        Scenario.sample "2026-11-03T10:05:00+00:00" 261 "Wienerberg" 5;
        Scenario.sample "2026-11-03T10:05:00+00:00" 260 "Hannovergasse" 10]
  /\ stdout (snd (fetch_and_store env w)) = stdout w.
Proof.
  intros env w entries.
  assert (H1 : reaches_loop env w Scenario.two_locations).
  { exists [("status", JInt 1); ("data", JList Scenario.two_locations)], (JInt 1).
    repeat split. exists 200. split; [reflexivity|lia]. }
  assert (H2 : map documented_entry Scenario.two_locations = map Some entries)
    by reflexivity.
  assert (H3 : capacity_table (db w) <> None) by discriminate.
  assert (H4 : distinct_keys
                 (rows_of (db w) ++ map (row_at (tick_timestamp env w)) entries)
               = true)
    by (vm_compute; reflexivity).
  repeat (split; [assumption|]).
  assert (E : rows_of (db w) ++ map (row_at (tick_timestamp env w)) entries
              = [Scenario.one_row;
                 Scenario.sample "2026-11-03T10:05:00+00:00" 261 "Wienerberg" 5;
                 Scenario.sample "2026-11-03T10:05:00+00:00" 260
                   "Hannovergasse" 10])
    by (vm_compute; reflexivity).
  rewrite <- E.
  exact (X5_tick_stores_documented_batch env w Scenario.two_locations entries
           H1 H2 H3 H4).
Defined.

(* ================================================================== *)
(** ** What [get_data] does and does not do *)

Section Reading.

Import DateTime.

(** The state after [get_data]: the clock is read when [hours] is
    positive, and nothing else has changed. *)
Lemma get_data_state (env : Env) (p : hours_param) (w : World) :
  snd (get_data env p w) = if 0 <? parse_hours p then clock_read w else w.
Proof.
  rewrite get_data_run, query_rows_run.
  destruct (0 <? parse_hours p).
  - destruct (timedelta_hours (parse_hours p)) as [delta|e]; [|reflexivity].
    destruct (sub (utcnow env (clock_reads w)) delta) as [since|e];
      [|reflexivity].
    now destruct (capacity_table (db w)).
  - now destruct (capacity_table (db w)).
Qed.

(** The rows a SELECT returns: sorted, and each row of the table that
    passes the filter exactly once. *)
Lemma query_rows_sorted (env : Env) (hours : Z) (w : World) (result : list Row) :
  fst (query_rows env hours w) = Ok result ->
  Sorted row_le result
  /\ exists keep : Row -> bool,
       Permutation (filter keep (rows_of (db w))) result
       /\ (hours <= 0 -> forall r, keep r = true).
Proof.
  rewrite query_rows_run. unfold rows_of.
  destruct (0 <? hours) eqn:Hpos.
  - apply Z.ltb_lt in Hpos.
    destruct (timedelta_hours hours) as [delta|e]; [|discriminate].
    destruct (sub (utcnow env (clock_reads w)) delta) as [since|e];
      [|discriminate].
    destruct (capacity_table (db w)) as [rows|]; [|discriminate].
    intros H. inversion H; subst result. split; [apply order_by_Sorted|].
    exists (fun r => String.leb (isoformat since) (timestamp r)).
    split; [apply order_by_perm|lia].
  - destruct (capacity_table (db w)) as [rows|]; [|discriminate].
    intros H. inversion H; subst result. split; [apply order_by_Sorted|].
    exists (fun _ => true). split; [|reflexivity].
    rewrite filter_all; [apply order_by_perm|].
    apply Forall_forall. reflexivity.
Qed.

(** With a positive lookback, a clock within range and a table, the
    query fails exactly when the lookback reaches before year 1. *)
Lemma lookback_boundary (env : Env) (hours : Z) (w : World) :
  0 < hours ->
  representable (utcnow env (clock_reads w)) = true ->
  capacity_table (db w) <> None ->
  (utcnow env (clock_reads w) < hours * US_PER_HOUR ->
   fst (get_data env (IntLiteral hours) w) = Raise OverflowError)
  /\ (hours * US_PER_HOUR <= utcnow env (clock_reads w) ->
      exists d, fst (get_data env (IntLiteral hours) w) = Ok d).
Proof.
  intros Hpos Hnow Htab. rewrite get_data_run. cbn [parse_hours].
  split.
  - intros Hlt. pose proof (lookback_overflow env hours w Hpos Hlt) as H.
    destruct (query_rows env hours w) as [[rows|e] w']; cbn [fst] in *;
      congruence.
  - intros Hle.
    destruct (capacity_table (db w)) as [rows|] eqn:Hrows; [|congruence].
    assert (Hrep : representable (utcnow env (clock_reads w) - hours * US_PER_HOUR)
                   = true).
    { unfold representable in *.
      apply andb_true_iff in Hnow. destruct Hnow as [_ Hhi].
      apply Z.ltb_lt in Hhi. unfold US_PER_HOUR, US_PER_SECOND in *.
      apply andb_true_iff. rewrite Z.leb_le, Z.ltb_lt. lia. }
    pose proof (lookback_positive env hours w rows Hrows Hpos Hnow Hrep) as H.
    destruct (query_rows env hours w) as [[rows'|e] w']; cbn [fst] in *;
      [|discriminate].
    eexists. reflexivity.
Qed.

End Reading.

(** X8. [get_data] only reads: the database, what was printed, the
    scheduler, the activation flag and the count of requests to the API
    are as before, whatever the argument and whether it fails or not; the
    clock is read exactly when [hours] is positive. *)
Theorem X8_get_data_only_reads (env : Env) (p : hours_param) (w : World) :
  snd (get_data env p w)
  = if 0 <? parse_hours p
    then set_clock_reads (S (clock_reads w)) w
    else w.
Proof.
  exact (get_data_state env p w).
Qed.

(** X9. For a positive [hours], a clock within the range of datetimes
    and an existing table, [get_data] raises OverflowError when
    [now - hours] lies before 0001-01-01, and returns a dict otherwise. *)
Theorem X9_lookback_overflow_boundary (env : Env) (hours : Z) (w : World) :
  0 < hours ->
  DateTime.representable (utcnow env (clock_reads w)) = true ->
  capacity_table (db w) <> None ->
  (utcnow env (clock_reads w) < hours * DateTime.US_PER_HOUR ->
   fst (get_data env (IntLiteral hours) w) = Raise OverflowError)
  /\ (hours * DateTime.US_PER_HOUR <= utcnow env (clock_reads w) ->
      exists d, fst (get_data env (IntLiteral hours) w) = Ok d).
Proof.
  exact (lookback_boundary env hours w).
Qed.

Lemma X9_lookback_overflow_boundary_witness :
  0 < 17758138
  /\ DateTime.representable
       (utcnow Scenario.healthy (clock_reads Scenario.one_stored)) = true
  /\ capacity_table (db Scenario.one_stored) <> None
  /\ (exists d,
        fst (get_data Scenario.healthy (IntLiteral 17758138) Scenario.one_stored)
        = Ok d)
  /\ fst (get_data Scenario.healthy (IntLiteral 17758139) Scenario.one_stored)
     = Raise OverflowError.
Proof.
  assert (H1 : DateTime.representable
                 (utcnow Scenario.healthy (clock_reads Scenario.one_stored))
               = true) by reflexivity.
  assert (H2 : capacity_table (db Scenario.one_stored) <> None) by discriminate.
  split; [lia|]. split; [exact H1|]. split; [exact H2|]. split.
  - refine (proj2 (X9_lookback_overflow_boundary Scenario.healthy 17758138
                     Scenario.one_stored _ H1 H2) _); [lia|].
    vm_compute. discriminate.
  - refine (proj1 (X9_lookback_overflow_boundary Scenario.healthy 17758139
                     Scenario.one_stored _ H1 H2) _); [lia|].
    vm_compute. reflexivity.
Defined.

(** X10. For a positive [hours] with a computable bound, a row that the
    collector stamped at the instant [t] is returned by the query exactly
    when it is in the table and [t] is not before [now - hours]: the
    comparison of the ISO texts in SQL is the comparison of the
    instants. *)
Theorem X10_lookback_on_instants (env : Env) (hours : Z) (w : World)
    (rows result : list Row) (r : Row) (t : DateTime.datetime) :
  capacity_table (db w) = Some rows ->
  0 < hours ->
  DateTime.representable (utcnow env (clock_reads w)) = true ->
  DateTime.representable
    (utcnow env (clock_reads w) - hours * DateTime.US_PER_HOUR) = true ->
  fst (query_rows env hours w) = Ok result ->
  timestamp r = DateTime.isoformat t ->
  DateTime.representable t = true ->
  (In r result
   <-> In r rows
       /\ utcnow env (clock_reads w) - hours * DateTime.US_PER_HOUR <= t).
Proof.
  intros H1 H2 H3 H4 H5 H6 H7.
  exact (lookback_positive_instants env hours w rows result H1 H2 H3 H4 H5
           r t H6 H7).
Qed.

Lemma X10_lookback_on_instants_witness :
  let t := DateTime.make 2026 11 3 10 0 0 0 in
  capacity_table (db Scenario.one_stored) = Some [Scenario.one_row]
  /\ fst (query_rows Scenario.healthy 1 Scenario.one_stored)
     = Ok [Scenario.one_row]
  /\ timestamp Scenario.one_row = DateTime.isoformat t
  /\ (In Scenario.one_row [Scenario.one_row]
      <-> In Scenario.one_row [Scenario.one_row]
          /\ utcnow Scenario.healthy (clock_reads Scenario.one_stored)
             - 1 * DateTime.US_PER_HOUR <= t).
Proof.
  intros t.
  assert (H5 : fst (query_rows Scenario.healthy 1 Scenario.one_stored)
               = Ok [Scenario.one_row]) by (vm_compute; reflexivity).
  assert (H6 : timestamp Scenario.one_row = DateTime.isoformat t)
    by (vm_compute; reflexivity).
  split; [reflexivity|]. split; [exact H5|]. split; [exact H6|].
  refine (X10_lookback_on_instants Scenario.healthy 1 Scenario.one_stored
            [Scenario.one_row] [Scenario.one_row] Scenario.one_row t
            eq_refl _ _ _ H5 H6 _); [lia|reflexivity|reflexivity|reflexivity].
Defined.

(** X13. Whenever the SELECT of [get_data] succeeds its rows are in
    ascending order of (timestamp, location_id) and are the rows of the
    table that pass the filter, each exactly once; with [hours <= 0]
    every row passes. *)
Theorem X13_query_sorted_selection (env : Env) (hours : Z) (w : World)
    (result : list Row) :
  fst (query_rows env hours w) = Ok result ->
  Sorted row_le result
  /\ exists keep : Row -> bool,
       Permutation (filter keep (rows_of (db w))) result
       /\ (hours <= 0 -> forall r, keep r = true).
Proof.
  exact (query_rows_sorted env hours w result).
Qed.

Lemma X13_query_sorted_selection_witness :
  let result :=
    [Scenario.sample "2026-11-03T10:00:00+00:00" 260 "Hannovergasse" 10;
     Scenario.sample "2026-11-03T10:00:00+00:00" 261 "Wienerberg" 5;
     Scenario.sample "2026-11-03T10:05:00+00:00" 260 "Hannovergasse" 12;
     Scenario.sample "2026-11-03T10:05:00+00:00" 261 "Wienerberg" 7] in
  fst (query_rows Scenario.busy 1 Scenario.history) = Ok result
  /\ Sorted row_le result
  /\ exists keep : Row -> bool,
       Permutation (filter keep (rows_of (db Scenario.history))) result
       /\ (1 <= 0 -> forall r, keep r = true).
Proof.
  intros result.
  assert (H : fst (query_rows Scenario.busy 1 Scenario.history) = Ok result)
    by (vm_compute; reflexivity).
  split; [exact H|].
  exact (X13_query_sorted_selection Scenario.busy 1 Scenario.history result H).
Defined.

(* ================================================================== *)
(** ** What the grouping keeps *)

Section Conservation.

Lemma total_app (m : series -> nat) (d d' : dict) :
  total m (d ++ d') = (total m d + total m d')%nat.
Proof.
  unfold total. now rewrite map_app, list_sum_app.
Qed.

Lemma contains_update (key key' : string) (f : series -> series) (d : dict) :
  contains key (update key' f d) = contains key d.
Proof.
  unfold contains. induction d as [|[k v] d IH]; simpl; [reflexivity|].
  destruct (String.eqb k key'); simpl; [reflexivity|now rewrite IH].
Qed.

Lemma total_update (m : series -> nat) (key : string) (f : series -> series)
    (d : dict) (n : nat) :
  (forall v, m (f v) = (m v + n)%nat) ->
  total m (update key f d)
  = (total m d + if contains key d then n else 0)%nat.
Proof.
  intros Hf. unfold total, contains.
  induction d as [|[k v] d IH]; simpl; [reflexivity|].
  destruct (String.eqb k key); simpl.
  - rewrite Hf. lia.
  - rewrite IH. lia.
Qed.

(** One row adds one timestamp and one capacity, to the same series. *)
Lemma group_row_total (d : dict) (r : Row) :
  total (fun s => List.length (timestamps s)) (group_row d r)
  = S (total (fun s => List.length (timestamps s)) d)
  /\ total (fun s => List.length (capacities s)) (group_row d r)
     = S (total (fun s => List.length (capacities s)) d).
Proof.
  unfold group_row.
  set (n := location_name r).
  set (d1 := if negb (contains n d)
             then add n {| timestamps := []; capacities := [] |} d else d).
  assert (Hc : contains n d1 = true).
  { unfold d1. destruct (contains n d) eqn:E; simpl; [exact E|].
    unfold add, contains. rewrite existsb_app. simpl.
    rewrite String.eqb_refl. apply orb_true_r. }
  assert (Ht : forall m, m {| timestamps := []; capacities := [] |} = 0%nat ->
                         total m d1 = total m d).
  { intros m Hm. unfold d1. destruct (contains n d); simpl; [reflexivity|].
    unfold add. rewrite total_app. unfold total at 2. simpl. rewrite Hm. lia. }
  split.
  - rewrite (total_update _ _ _ _ 0), contains_update, Hc
      by (intros v; simpl; lia).
    rewrite (total_update _ _ _ _ 1), Hc
      by (intros v; simpl; rewrite length_app; simpl; lia).
    rewrite Ht by reflexivity. lia.
  - rewrite (total_update _ _ _ _ 1), contains_update, Hc
      by (intros v; simpl; rewrite length_app; simpl; lia).
    rewrite (total_update _ _ _ _ 0), Hc by (intros v; simpl; lia).
    rewrite Ht by reflexivity. lia.
Qed.

Lemma group_rows_total (rows : list Row) :
  total (fun s => List.length (timestamps s)) (group_rows rows)
  = List.length rows
  /\ total (fun s => List.length (capacities s)) (group_rows rows)
     = List.length rows.
Proof.
  induction rows as [|r rows IH] using rev_ind; [now split|].
  rewrite group_rows_snoc, length_app. simpl.
  destruct (group_row_total (group_rows rows) r) as [H1 H2].
  destruct IH as [I1 I2]. rewrite H1, H2, I1, I2. lia.
Qed.

(** Every series of the result holds at least one point, and as many
    timestamps as capacities. *)
Lemma group_rows_series (rows : list Row) :
  Forall (fun kv =>
            timestamps (snd kv) <> []
            /\ List.length (timestamps (snd kv))
               = List.length (capacities (snd kv)))
         (group_rows rows).
Proof.
  rewrite group_rows_table. unfold table.
  apply Forall_forall. intros kv Hin.
  apply in_map_iff in Hin. destruct Hin as (name & <- & Hname).
  apply first_seen_In, existsb_named in Hname.
  cbn [snd series_of timestamps capacities]. rewrite !length_map.
  split; [|reflexivity].
  apply existsb_exists in Hname. destruct Hname as (r & Hr & Hn).
  assert (Hin : In r (filter (named name) rows)) by now apply filter_In.
  destruct (filter (named name) rows); [contradiction|discriminate].
Qed.

End Conservation.

(** X11. The grouping of [get_data] loses and duplicates nothing: the
    series of the result hold together as many timestamps, and as many
    capacities, as there are rows; every series has at least one point
    and as many timestamps as capacities. *)
Theorem X11_grouping_conserves_rows (rows : list Row) :
  list_sum (map (fun kv => List.length (timestamps (snd kv))) (group_rows rows))
  = List.length rows
  /\ list_sum (map (fun kv => List.length (capacities (snd kv))) (group_rows rows))
     = List.length rows
  /\ Forall (fun kv =>
               timestamps (snd kv) <> []
               /\ List.length (timestamps (snd kv))
                  = List.length (capacities (snd kv)))
            (group_rows rows).
Proof.
  destruct (group_rows_total rows) as [H1 H2].
  split; [exact H1|]. split; [exact H2|]. apply group_rows_series.
Qed.

(* ================================================================== *)
(** ** Series in ascending order *)

Section Ascending.

Lemma string_compare_not_gt_trans (s : string) :
  forall t u : string,
    String.compare s t <> Gt -> String.compare t u <> Gt ->
    String.compare s u <> Gt.
Proof.
  induction s as [|a s IH]; intros [|b t] [|c u]; simpl; try congruence.
  unfold Ascii.compare.
  destruct (N.compare_spec (N_of_ascii a) (N_of_ascii b)) as [Hab|Hab|Hab];
    destruct (N.compare_spec (N_of_ascii b) (N_of_ascii c)) as [Hbc|Hbc|Hbc];
    try congruence;
    destruct (N.compare_spec (N_of_ascii a) (N_of_ascii c)) as [Hac|Hac|Hac];
    try congruence; try lia.
  apply IH.
Qed.

Lemma text_le_trans (s t u : string) :
  text_le s t -> text_le t u -> text_le s u.
Proof.
  unfold text_le, String.leb. intros H1 H2.
  pose proof (string_compare_not_gt_trans s t u) as H.
  destruct (String.compare s t), (String.compare t u),
    (String.compare s u); try discriminate; try reflexivity;
    exfalso; apply H; congruence.
Qed.

Lemma row_le_text_le (a b : Row) :
  row_le a b -> text_le (timestamp a) (timestamp b).
Proof.
  unfold row_le, row_leb, text_le, String.leb.
  now destruct (String.compare (timestamp a) (timestamp b)).
Qed.

(** Rows in the order of the SELECT have their timestamps in ascending
    order, and so has every selection of them. *)
Lemma sorted_rows_timestamps (keep : Row -> bool) (rows : list Row) :
  Sorted row_le rows ->
  StronglySorted text_le (map timestamp (filter keep rows)).
Proof.
  intros Hs.
  assert (Hss : StronglySorted (fun a b => text_le (timestamp a) (timestamp b))
                  rows).
  { apply Sorted_StronglySorted.
    - intros a b c. apply text_le_trans.
    - induction Hs as [|a l Hl IH Hhd]; constructor; [exact IH|].
      destruct Hhd; constructor. now apply row_le_text_le. }
  clear Hs. induction Hss as [|a l Hl IH Ha]; simpl; [constructor|].
  assert (Hrest : Forall (text_le (timestamp a)) (map timestamp (filter keep l))).
  { apply Forall_forall. intros t Ht. apply in_map_iff in Ht.
    destruct Ht as (r & <- & Hr). apply filter_In in Hr.
    rewrite Forall_forall in Ha. now apply Ha. }
  destruct (keep a); simpl; [constructor|]; assumption.
Qed.

(** The timestamps of every series of [get_data] are in ascending
    order. *)
Lemma get_data_ascending (env : Env) (p : hours_param) (w : World) (d : dict) :
  fst (get_data env p w) = Ok d ->
  Forall (fun kv => StronglySorted text_le (timestamps (snd kv))) d.
Proof.
  rewrite get_data_run.
  destruct (query_rows env (parse_hours p) w) as [[rows|e] w'] eqn:Hq;
    [|discriminate].
  intros H. inversion H; subst d.
  assert (Hs : Sorted row_le rows).
  { apply (query_rows_sorted env (parse_hours p) w). now rewrite Hq. }
  rewrite group_rows_table. unfold table. apply Forall_forall.
  intros kv Hin. apply in_map_iff in Hin. destruct Hin as (name & <- & _).
  cbn [snd series_of timestamps]. now apply sorted_rows_timestamps.
Qed.

End Ascending.

(** X12. In every dict that [get_data] returns, the timestamps of each
    series are in ascending text order: each one is at most every later
    one of the same series. *)
Theorem X12_series_timestamps_ascending (env : Env) (p : hours_param)
    (w : World) (d : dict) :
  fst (get_data env p w) = Ok d ->
  Forall (fun kv => StronglySorted text_le (timestamps (snd kv))) d.
Proof.
  exact (get_data_ascending env p w d).
Qed.

Lemma X12_series_timestamps_ascending_witness :
  let d := [("Hannovergasse",
             {| timestamps := ["2026-11-03T10:00:00+00:00";
                               "2026-11-03T10:05:00+00:00"];
                capacities := [SInt 10; SInt 12] |});
            ("Wienerberg",
             {| timestamps := ["2026-11-03T10:00:00+00:00";
                               "2026-11-03T10:05:00+00:00"];
                capacities := [SInt 5; SInt 7] |})] in
  fst (get_data Scenario.busy (IntLiteral 1) Scenario.history) = Ok d
  /\ Forall (fun kv => StronglySorted text_le (timestamps (snd kv))) d.
Proof.
  intros d.
  assert (H : fst (get_data Scenario.busy (IntLiteral 1) Scenario.history) = Ok d)
    by (vm_compute; reflexivity).
  split; [exact H|].
  exact (X12_series_timestamps_ascending Scenario.busy (IntLiteral 1)
           Scenario.history d H).
Defined.

(* ================================================================== *)
(** ** The life of a process *)

Section Process.

(** [start_scheduler], step by step. *)
Lemma start_scheduler_run (env : Env) (w : World) :
  start_scheduler env w
  = (Ok tt, arm (snd (fetch_and_store env (set_db (initialise (db w)) w)))).
Proof.
  unfold start_scheduler, bind. rewrite init_db_run.
  set (w1 := set_db (initialise (db w)) w).
  destruct (fetch_and_store_frame env w1) as (Hok & _).
  destruct (fetch_and_store env w1) as [res w2]. cbn [fst snd] in *. subst res.
  unfold gets, arm. destruct (scheduler_running w2); reflexivity.
Qed.

(** [_ensure_scheduler_started], step by step. *)
Lemma ensure_started_run (env : Env) (w : World) :
  _ensure_scheduler_started env w
  = (Ok tt,
     if scheduler_started w then w
     else set_scheduler_started true (snd (start_scheduler env w))).
Proof.
  unfold _ensure_scheduler_started, bind, gets.
  destruct (scheduler_started w) eqn:E; [reflexivity|].
  cbn [fst snd]. rewrite E. rewrite start_scheduler_run. reflexivity.
Qed.

(** The database after a run of the collector has a table exactly when
    it had one, the index it had, and the rows it had followed by new
    ones. *)
Lemma fetch_and_store_db (env : Env) (w : World) :
  (capacity_table (db (snd (fetch_and_store env w))) = None
   <-> capacity_table (db w) = None)
  /\ idx_capacity_location_timestamp (db (snd (fetch_and_store env w)))
     = idx_capacity_location_timestamp (db w)
  /\ exists batch,
       rows_of (db (snd (fetch_and_store env w))) = rows_of (db w) ++ batch.
Proof.
  destruct (fetch_and_store_effect env w) as (batch & Hdb & _ & _ & Hnt & _).
  rewrite Hdb. split; [|split].
  - split.
    + destruct batch; [auto|discriminate].
    + intros Htab. now rewrite (Hnt Htab).
  - now destruct batch.
  - exists batch. apply rows_of_store.
Qed.

Lemma start_scheduler_well_formed (env : Env) (w : World) :
  well_formed w -> well_formed (snd (start_scheduler env w)).
Proof.
  intros (Hj & Hrj & Hsr & Hrt).
  rewrite start_scheduler_run. cbn [snd].
  set (w1 := set_db (initialise (db w)) w).
  destruct (fetch_and_store_frame env w1) as (_ & _ & _ & Fr & Fj & Fs).
  destruct (fetch_and_store_db env w1) as (Ft & Fi & _).
  set (w2 := snd (fetch_and_store env w1)) in *.
  change (scheduler_running w1) with (scheduler_running w) in Fr.
  change (scheduler_jobs w1) with (scheduler_jobs w) in Fj.
  change (scheduler_started w1) with (scheduler_started w) in Fs.
  assert (Htab : capacity_table (db w2) <> None).
  { intros H. apply Ft in H. discriminate. }
  assert (Hidx : idx_capacity_location_timestamp (db w2) = true)
    by (rewrite Fi; reflexivity).
  unfold arm, well_formed. destruct (scheduler_running w2) eqn:R.
  - assert (Rw : scheduler_running w = true) by congruence.
    rewrite R, Fj, Fs. repeat split; auto; tauto.
  - assert (Rw : scheduler_running w = false) by congruence.
    cbn. rewrite Fj, Fs.
    assert (Hz : scheduler_jobs w = 0%nat).
    { destruct (scheduler_jobs w) as [|[|n]]; [reflexivity| |lia].
      rewrite (proj2 Hrj eq_refl) in Rw. discriminate. }
    rewrite Hz. repeat split; auto.
Qed.

Lemma fetch_and_store_well_formed (env : Env) (w : World) :
  well_formed w -> well_formed (snd (fetch_and_store env w)).
Proof.
  intros (Hj & Hrj & Hsr & Hrt).
  destruct (fetch_and_store_frame env w) as (_ & _ & _ & Fr & Fj & Fs).
  destruct (fetch_and_store_db env w) as (Ft & Fi & _).
  unfold well_formed. rewrite Fr, Fj, Fs, Fi.
  repeat split; tauto.
Qed.

(** A firing of the trigger in a well-formed state: one run of the
    collector when the scheduler runs, nothing otherwise. *)
Lemma interval_elapsed_run (env : Env) (w : World) :
  well_formed w ->
  snd (interval_elapsed env w)
  = if scheduler_running w then snd (fetch_and_store env w) else w.
Proof.
  intros (Hj & Hrj & _). unfold interval_elapsed.
  destruct (scheduler_running w); [|reflexivity].
  rewrite (proj1 Hrj eq_refl). simpl. unfold bind, ret.
  destruct (fetch_and_store_frame env w) as (Hok & _).
  destruct (fetch_and_store env w) as [res w']. cbn [fst] in Hok. now subst res.
Qed.

(** Serving a request: the state after the hook, with the clock read
    again when the view is [get_data] with a positive [hours]. *)
Lemma serve_state (env : Env) (r : request) (w : World) :
  snd (serve env r w)
  = let w1 := snd (_ensure_scheduler_started env w) in
    match r with
    | GetIndex => w1
    | GetData p => if 0 <? parse_hours p then clock_read w1 else w1
    end.
Proof.
  unfold serve, bind at 1. rewrite ensure_started_run. cbn [fst snd].
  destruct r as [|p]; [reflexivity|].
  unfold bind.
  match goal with |- context [get_data env p ?w1] =>
    pose proof (get_data_state env p w1) as H;
    destruct (get_data env p w1) as [[d|e] w2]
  end; cbn [snd] in *; now subst w2.
Qed.

Lemma ensure_started_well_formed (env : Env) (w : World) :
  well_formed w -> well_formed (snd (_ensure_scheduler_started env w)).
Proof.
  intros Hw. rewrite ensure_started_run. cbn [snd].
  destruct (scheduler_started w); [exact Hw|].
  pose proof (start_scheduler_well_formed env w Hw) as (Hj & Hrj & Hsr & Hrt).
  assert (Hrun : scheduler_running (snd (start_scheduler env w)) = true).
  { rewrite start_scheduler_run. cbn [snd]. unfold arm.
    now destruct (scheduler_running (snd (fetch_and_store env _))) eqn:R. }
  unfold well_formed. cbn. repeat split; auto; tauto.
Qed.

Lemma handle_well_formed (env : Env) (w : World) (ev : event) :
  well_formed w -> well_formed (handle env w ev).
Proof.
  intros Hw. destruct ev as [|r]; cbn [handle].
  - rewrite (interval_elapsed_run env w Hw).
    destruct (scheduler_running w); [|exact Hw].
    now apply fetch_and_store_well_formed.
  - rewrite serve_state. cbv zeta.
    pose proof (ensure_started_well_formed env w Hw) as H1.
    destruct r as [|p]; [exact H1|].
    destruct (0 <? parse_hours p); exact H1.
Qed.

Lemma run_well_formed (env : Env) (events : list event) :
  forall w, well_formed w -> well_formed (run env events w).
Proof.
  unfold run. induction events as [|ev events IH]; intros w Hw; simpl;
    [exact Hw|].
  apply IH. now apply handle_well_formed.
Qed.

Lemma boot_well_formed (d : Database) : well_formed (boot d).
Proof.
  unfold well_formed, boot. cbn. repeat split; try discriminate; lia.
Qed.

End Process.

Section Counting.

Lemma start_scheduler_facts (env : Env) (w : World) :
  fst (start_scheduler env w) = Ok tt
  /\ scheduler_running (snd (start_scheduler env w)) = true
  /\ scheduler_jobs (snd (start_scheduler env w))
     = (if scheduler_running w then scheduler_jobs w else S (scheduler_jobs w))
  /\ requests_sent (snd (start_scheduler env w)) = S (requests_sent w)
  /\ scheduler_started (snd (start_scheduler env w)) = scheduler_started w
  /\ capacity_table (db (snd (start_scheduler env w))) <> None
  /\ idx_capacity_location_timestamp (db (snd (start_scheduler env w))) = true.
Proof.
  rewrite start_scheduler_run. cbn [fst snd].
  set (w1 := set_db (initialise (db w)) w).
  destruct (fetch_and_store_frame env w1) as (_ & Fq & _ & Fr & Fj & Fs).
  destruct (fetch_and_store_db env w1) as (Ft & Fi & _).
  set (w2 := snd (fetch_and_store env w1)) in *.
  change (scheduler_running w1) with (scheduler_running w) in Fr.
  change (scheduler_jobs w1) with (scheduler_jobs w) in Fj.
  change (scheduler_started w1) with (scheduler_started w) in Fs.
  change (requests_sent w1) with (requests_sent w) in Fq.
  assert (Htab : capacity_table (db w2) <> None).
  { intros H. apply Ft in H. discriminate. }
  assert (Hidx : idx_capacity_location_timestamp (db w2) = true)
    by (rewrite Fi; reflexivity).
  unfold arm. rewrite <- Fr.
  destruct (scheduler_running w2) eqn:R; cbn; rewrite ?R;
    repeat split; congruence.
Qed.

Lemma run_requests (env : Env) (events : list event) :
  forall w,
    well_formed w ->
    requests_sent (run env events w)
    = (requests_sent w
       + fetches (scheduler_running w) (scheduler_started w) events)%nat.
Proof.
  unfold run. induction events as [|ev events IH]; intros w Hw; simpl;
    [lia|].
  rewrite (IH _ (handle_well_formed env w ev Hw)).
  destruct ev as [|r]; cbn [handle].
  - rewrite (interval_elapsed_run env w Hw).
    destruct (scheduler_running w) eqn:R; [|rewrite R; lia].
    destruct (fetch_and_store_frame env w) as (_ & Fq & _ & Fr & _ & Fs).
    rewrite Fq, Fr, Fs, R. lia.
  - rewrite serve_state, ensure_started_run. cbv zeta. cbn [snd].
    destruct Hw as (_ & _ & Hsr & _).
    destruct (scheduler_started w) eqn:St.
    + specialize (Hsr eq_refl).
      destruct r as [|p]; [|destruct (0 <? parse_hours p)]; cbn;
        rewrite ?Hsr, ?St; lia.
    + destruct (start_scheduler_facts env w) as (_ & Sr & _ & Sq & _).
      destruct r as [|p]; [|destruct (0 <? parse_hours p)]; cbn;
        rewrite ?Sr, ?Sq; lia.
Qed.

Lemma rows_of_initialise (d : Database) : rows_of (initialise d) = rows_of d.
Proof. reflexivity. Qed.

Lemma fetch_and_store_extends (env : Env) (before : list Row) (w : World) :
  extends before w -> extends before (snd (fetch_and_store env w)).
Proof.
  intros [[added Hrows] Hkeys].
  destruct (fetch_and_store_effect env w) as (batch & Hdb & _ & _ & _ & Hk).
  unfold extends. rewrite Hdb, rows_of_store. split.
  - exists (added ++ batch). now rewrite Hrows, app_assoc.
  - intros H. auto.
Qed.

Lemma start_scheduler_extends (env : Env) (before : list Row) (w : World) :
  extends before w -> extends before (snd (start_scheduler env w)).
Proof.
  intros Hw. rewrite start_scheduler_run. cbn [snd].
  assert (H : extends before (snd (fetch_and_store env
                                     (set_db (initialise (db w)) w)))).
  { apply fetch_and_store_extends. exact Hw. }
  unfold arm.
  destruct (scheduler_running (snd (fetch_and_store env _))); exact H.
Qed.

Lemma handle_extends (env : Env) (before : list Row) (w : World) (ev : event) :
  well_formed w -> extends before w -> extends before (handle env w ev).
Proof.
  intros Hw He. destruct ev as [|r]; cbn [handle].
  - rewrite (interval_elapsed_run env w Hw).
    destruct (scheduler_running w); [|exact He].
    now apply fetch_and_store_extends.
  - rewrite serve_state, ensure_started_run. cbv zeta. cbn [snd].
    assert (H : extends before
                  (if scheduler_started w then w
                   else set_scheduler_started true (snd (start_scheduler env w)))).
    { destruct (scheduler_started w); [exact He|].
      exact (start_scheduler_extends env before w He). }
    destruct r as [|p]; [exact H|].
    destruct (0 <? parse_hours p); exact H.
Qed.

Lemma run_extends (env : Env) (before : list Row) (events : list event) :
  forall w, well_formed w -> extends before w ->
            extends before (run env events w).
Proof.
  unfold run. induction events as [|ev events IH]; intros w Hw He; simpl;
    [exact He|].
  apply IH; [now apply handle_well_formed|now apply handle_extends].
Qed.

Lemma boot_extends (d : Database) : extends (rows_of d) (boot d).
Proof.
  split; [exists []; cbn; now rewrite app_nil_r|auto].
Qed.

End Counting.

(** X6. [start_scheduler] returns normally in every state; afterwards
    the table and the index exist and the scheduler runs; it arms a
    timer when the scheduler was not running and none when it was; it
    sends exactly one request to the API; it leaves the activation flag
    as it was. *)
Theorem X6_start_scheduler_effect (env : Env) (w : World) :
  fst (start_scheduler env w) = Ok tt
  /\ scheduler_running (snd (start_scheduler env w)) = true
  /\ scheduler_jobs (snd (start_scheduler env w))
     = (if scheduler_running w then scheduler_jobs w else S (scheduler_jobs w))
  /\ requests_sent (snd (start_scheduler env w)) = S (requests_sent w)
  /\ scheduler_started (snd (start_scheduler env w)) = scheduler_started w
  /\ capacity_table (db (snd (start_scheduler env w))) <> None
  /\ idx_capacity_location_timestamp (db (snd (start_scheduler env w))) = true.
Proof.
  exact (start_scheduler_facts env w).
Qed.

(** X7. The hook [_ensure_scheduler_started] returns normally and leaves
    the activation flag set; run again on the state it leaves, with any
    answer of the API, it changes nothing; and it sends a request to the
    API only when it found the flag unset. *)
Theorem X7_ensure_started_once (env env' : Env) (w : World) :
  fst (_ensure_scheduler_started env w) = Ok tt
  /\ scheduler_started (snd (_ensure_scheduler_started env w)) = true
  /\ _ensure_scheduler_started env' (snd (_ensure_scheduler_started env w))
     = (Ok tt, snd (_ensure_scheduler_started env w))
  /\ requests_sent (snd (_ensure_scheduler_started env w))
     = (requests_sent w + if scheduler_started w then 0 else 1)%nat.
Proof.
  assert (Hflag : scheduler_started (snd (_ensure_scheduler_started env w)) = true).
  { rewrite ensure_started_run. cbn [snd].
    now destruct (scheduler_started w) eqn:E. }
  split; [now rewrite ensure_started_run|]. split; [exact Hflag|].
  split; [now apply ensure_started_again|].
  rewrite ensure_started_run. cbn [snd].
  destruct (scheduler_started w); [lia|].
  destruct (start_scheduler_facts env w) as (_ & _ & _ & Sq & _).
  cbn. rewrite Sq. lia.
Qed.

(** X14. Whatever ticks and requests a process meets, started as a
    script or imported by a server, on any database: at most one timer
    is armed, and exactly one when the scheduler runs; the activation
    flag is set only when the scheduler runs; and the scheduler runs only
    when the table and the index exist. *)
Theorem X14_process_stays_well_formed (env : Env) (events : list event)
    (d : Database) :
  well_formed (main env events d) /\ well_formed (imported env events d).
Proof.
  unfold main, imported. split; apply run_well_formed.
  - apply start_scheduler_well_formed, boot_well_formed.
  - apply boot_well_formed.
Qed.

(** X15. The requests a process sends to the API: one for each tick of
    the running scheduler and one for each request served while the
    activation flag is unset.  A script sends one at its start and one
    more at its first request; an imported module sends its first at its
    first request, before which ticks do nothing. *)
Theorem X15_requests_sent_to_api (env : Env) (events : list event)
    (d : Database) :
  requests_sent (main env events d) = (1 + fetches true false events)%nat
  /\ requests_sent (imported env events d) = fetches false false events.
Proof.
  unfold main, imported. split.
  - rewrite run_requests
      by apply start_scheduler_well_formed, boot_well_formed.
    destruct (start_scheduler_facts env (boot d)) as (_ & Sr & _ & Sq & Ss & _).
    rewrite Sr, Sq, Ss. reflexivity.
  - rewrite run_requests by apply boot_well_formed. reflexivity.
Qed.

(** X16. The process never updates and never deletes: whatever ticks
    and requests it meets, the table afterwards holds the rows the
    database held at the start, in place, followed by the rows added;
    and if the keys were pairwise distinct at the start they still are. *)
Theorem X16_rows_are_only_added (env : Env) (events : list event)
    (d : Database) :
  extends (rows_of d) (main env events d)
  /\ extends (rows_of d) (imported env events d).
Proof.
  unfold main, imported. split; apply run_extends.
  - apply start_scheduler_well_formed, boot_well_formed.
  - apply start_scheduler_extends, boot_extends.
  - apply boot_well_formed.
  - apply boot_extends.
Qed.

(* ================================================================== *)
(** ** Ticks under an advancing clock *)

Section AdvancingClock.

Lemma distinct_keys_app (l1 l2 : list Row) :
  distinct_keys l1 = true -> distinct_keys l2 = true ->
  (forall a b, In a l1 -> In b l2 -> same_key a b = false) ->
  distinct_keys (l1 ++ l2) = true.
Proof.
  induction l1 as [|a l1 IH]; simpl; [auto|].
  rewrite !andb_true_iff, !negb_true_iff.
  intros [Ha H1] H2 Hcross. split.
  - rewrite existsb_app, Ha. simpl. apply existsb_false_iff.
    intros b Hb. apply Hcross; [now left|exact Hb].
  - apply IH; auto.
Qed.

(** Rows of one timestamp with distinct integer ids have distinct keys. *)
Lemma distinct_keys_batch (ts : string) (entries : list (Z * string * Z)) :
  NoDup (map entry_id entries) ->
  distinct_keys (map (row_at ts) entries) = true.
Proof.
  induction entries as [|e entries IH]; simpl; [reflexivity|].
  intros H. inversion H as [|x l Hin Hnd]; subst.
  rewrite (IH Hnd), andb_true_r. apply negb_true_iff, existsb_false_iff.
  intros r Hr. apply in_map_iff in Hr. destruct Hr as (e' & <- & He').
  unfold same_key, row_at, sql_eqb. cbn.
  assert (Hne : entry_id e <> entry_id e').
  { intros Heq. apply Hin. rewrite Heq. now apply in_map. }
  unfold entry_id in Hne.
  destruct (Z.leb_spec (fst (fst e)) (fst (fst e')));
    destruct (Z.leb_spec (fst (fst e')) (fst (fst e))); simpl;
    rewrite ?andb_false_r; try reflexivity; lia.
Qed.

Lemma compare_lt_eqb (s t : string) :
  String.compare s t = Lt -> String.eqb s t = false.
Proof.
  intros H. apply String.eqb_neq. intros ->.
  rewrite string_compare_refl in H. discriminate.
Qed.

(** Under an advancing clock the rows of a tick collide with no row that
    an earlier reading stamped. *)
Lemma tick_keys_new (env : Env) (w : World) (entries : list (Z * string * Z)) :
  stamped env w ->
  clock_advances env (clock_reads w) ->
  distinct_keys (rows_of (db w)) = true ->
  NoDup (map entry_id entries) ->
  distinct_keys (rows_of (db w) ++ map (row_at (tick_timestamp env w)) entries)
  = true.
Proof.
  intros Hst [Hrep Hinc] Hd Hids.
  apply distinct_keys_app; [exact Hd|now apply distinct_keys_batch|].
  intros a b Ha Hb. apply in_map_iff in Hb. destruct Hb as (e & <- & _).
  unfold stamped in Hst. rewrite Forall_forall in Hst.
  destruct (Hst a Ha) as (k & Hk & Hts).
  unfold same_key. cbn [timestamp row_at]. rewrite Hts.
  unfold tick_timestamp. rewrite compare_lt_eqb; [reflexivity|].
  apply isoformat_lt; [apply Hrep; lia|apply Hrep; lia|apply Hinc; lia].
Qed.

Lemma documented_reaches_loop (env : Env) (w : World)
    (entries : list (Z * string * Z)) :
  documented_answer (remote env (requests_sent w)) entries ->
  exists locations,
    reaches_loop env w locations
    /\ map documented_entry locations = map Some entries
    /\ NoDup (map entry_id entries).
Proof.
  intros (code & fields & status & locations & H1 & H2 & H3 & H4 & H5 & H6 & H7).
  exists locations. split; [|now split].
  exists fields, status. repeat split; try assumption.
  exists code. now split.
Qed.

(** A tick under an advancing clock, on a documented answer: the whole
    batch is stored, nothing is printed, and the state stays healthy. *)
Lemma tick_healthy (env : Env) (w : World) (entries : list (Z * string * Z)) :
  documented_answer (remote env (requests_sent w)) entries ->
  capacity_table (db w) <> None ->
  clock_advances env (clock_reads w) ->
  stamped env w ->
  distinct_keys (rows_of (db w)) = true ->
  fetch_and_store env w
  = (Ok tt,
     set_db (store (map (row_at (tick_timestamp env w)) entries) (db w))
       (clock_read (requested w)))
  /\ stamped env (snd (fetch_and_store env w))
  /\ distinct_keys (rows_of (db (snd (fetch_and_store env w)))) = true.
Proof.
  intros Hdoc Htab Hclock Hst Hd.
  destruct (documented_reaches_loop env w entries Hdoc)
    as (locations & Hloop & Hmap & Hids).
  pose proof (tick_keys_new env w entries Hst Hclock Hd Hids) as Hnew.
  rewrite (tick_stores_documented env w locations entries Hloop Hmap Htab Hnew).
  split; [reflexivity|]. cbn [snd]. split.
  - unfold stamped. cbn [db set_db clock_reads clock_read set_clock_reads].
    rewrite rows_of_store. apply Forall_app. split.
    + unfold stamped in Hst. eapply Forall_impl; [|exact Hst].
      intros r (k & Hk & Hr). exists k. split; [|exact Hr].
      cbn in *. lia.
    + apply Forall_forall. intros r Hr. apply in_map_iff in Hr.
      destruct Hr as (e & <- & _). exists (clock_reads w).
      split; [cbn; lia|reflexivity].
  - cbn [db set_db]. now rewrite rows_of_store.
Qed.

End AdvancingClock.

(** X17. Under a clock whose readings so far are datetimes that
    advance, on a table whose rows were stamped by earlier readings and
    have pairwise distinct keys, a run of [fetch_and_store] that receives
    the documented answer with pairwise distinct ids stores the whole
    batch under its timestamp, prints nothing, and leaves the table
    stamped and its keys distinct: such a tick never collides with an
    earlier one. *)
Theorem X17_tick_never_collides (env : Env) (w : World)
    (entries : list (Z * string * Z)) :
  documented_answer (remote env (requests_sent w)) entries ->
  capacity_table (db w) <> None ->
  clock_advances env (clock_reads w) ->
  stamped env w ->
  distinct_keys (rows_of (db w)) = true ->
  rows_of (db (snd (fetch_and_store env w)))
  = rows_of (db w) ++ map (row_at (tick_timestamp env w)) entries
  /\ stdout (snd (fetch_and_store env w)) = stdout w
  /\ stamped env (snd (fetch_and_store env w))
  /\ distinct_keys (rows_of (db (snd (fetch_and_store env w)))) = true.
Proof.
  intros H1 H2 H3 H4 H5.
  destruct (tick_healthy env w entries H1 H2 H3 H4 H5) as (Hrun & Hst & Hd).
  split; [|split; [|split; assumption]].
  - rewrite Hrun. cbn [snd db set_db]. apply rows_of_store.
  - rewrite Hrun. reflexivity.
Qed.

Section ScenarioClock.

(** The clock of the scenarios advances, at least for its first
    thousand readings. *)
Lemma scenario_clock_advances (o : outcome) (n : nat) :
  (n <= 1000)%nat -> clock_advances (Scenario.env_of o) n.
Proof.
  intros Hn. unfold clock_advances. cbn [utcnow Scenario.env_of].
  unfold Scenario.clock, DateTime.representable.
  let b := eval vm_compute in (DateTime.make 2026 11 3 10 0 0 0) in
  change (DateTime.make 2026 11 3 10 0 0 0) with b.
  unfold DateTime.MAX_ORDINAL, DateTime.US_PER_DAY, DateTime.US_PER_HOUR,
    DateTime.US_PER_SECOND.
  split.
  - intros k Hk. apply andb_true_iff. rewrite Z.leb_le, Z.ltb_lt. lia.
  - intros i j Hij Hj. lia.
Qed.

Lemma scenario_documented (code : Z) (n : nat) :
  code < 400 \/ 600 <= code ->
  documented_answer
    (remote (Scenario.env_of (Scenario.answer code (JInt 1) Scenario.one_location)) n)
    [(260, "Hannovergasse", 10)].
Proof.
  intros Hcode.
  exists code, [("status", JInt 1); ("data", JList Scenario.one_location)],
    (JInt 1), Scenario.one_location.
  repeat split; try assumption. repeat constructor. intros [].
Qed.

End ScenarioClock.

Lemma X17_tick_never_collides_witness :
  let entries := [(260, "Hannovergasse", 10)] in
  let w := Scenario.after_one_tick in
  documented_answer (remote Scenario.healthy (requests_sent w)) entries
  /\ capacity_table (db w) <> None
  /\ clock_advances Scenario.healthy (clock_reads w)
  /\ stamped Scenario.healthy w
  /\ distinct_keys (rows_of (db w)) = true
  /\ rows_of (db (snd (fetch_and_store Scenario.healthy w)))
     = rows_of (db w) ++ map (row_at (tick_timestamp Scenario.healthy w)) entries.
Proof.
  intros entries w.
  assert (H1 : documented_answer (remote Scenario.healthy (requests_sent w))
                 entries)
    by (apply scenario_documented; lia).
  assert (H2 : capacity_table (db w) <> None) by discriminate.
  assert (H3 : clock_advances Scenario.healthy (clock_reads w))
    by (apply scenario_clock_advances; cbn; lia).
  assert (H4 : stamped Scenario.healthy w).
  { repeat constructor. exists 0%nat. split; [cbn; lia|].
    vm_compute. reflexivity. }
  assert (H5 : distinct_keys (rows_of (db w)) = true) by reflexivity.
  repeat (split; [assumption|]).
  exact (proj1 (X17_tick_never_collides Scenario.healthy w entries
                  H1 H2 H3 H4 H5)).
Defined.

(* ================================================================== *)
(** ** A process that never fails *)

Section NeverFails.

Variable env : Env.

(** The API always gives the documented answer. *)
Hypothesis always_documented :
  forall n, exists entries, documented_answer (remote env n) entries.

Lemma clock_advances_le (n m : nat) :
  (m <= n)%nat -> clock_advances env n -> clock_advances env m.
Proof.
  intros Hm [Hrep Hinc]. split.
  - intros k Hk. apply Hrep. lia.
  - intros i j Hij Hj. apply Hinc; lia.
Qed.

Lemma fetch_and_store_healthy (w : World) :
  healthy_state env w ->
  capacity_table (db w) <> None ->
  clock_advances env (clock_reads w) ->
  healthy_state env (snd (fetch_and_store env w))
  /\ clock_reads (snd (fetch_and_store env w)) = S (clock_reads w).
Proof.
  intros (Hwf & Hst & Hd & Hout) Htab Hclock.
  destruct (always_documented (requests_sent w)) as [entries Hdoc].
  destruct (tick_healthy env w entries Hdoc Htab Hclock Hst Hd)
    as (Hrun & Hst' & Hd').
  split.
  - split; [|split; [|split]].
    + now apply fetch_and_store_well_formed.
    + exact Hst'.
    + exact Hd'.
    + rewrite Hrun. exact Hout.
  - rewrite Hrun. reflexivity.
Qed.

Lemma initialise_healthy (w : World) :
  healthy_state env w -> healthy_state env (set_db (initialise (db w)) w).
Proof.
  intros (Hwf & Hst & Hd & Hout).
  destruct Hwf as (Hj & Hrj & Hsr & Hrt).
  split; [|split; [|split]].
  - split; [exact Hj|split; [exact Hrj|split; [exact Hsr|]]].
    intros _. cbn. split; [discriminate|reflexivity].
  - unfold stamped in *. cbn [db set_db clock_reads].
    rewrite rows_of_initialise. exact Hst.
  - cbn [db set_db]. rewrite rows_of_initialise. exact Hd.
  - exact Hout.
Qed.

Lemma arm_healthy (w : World) :
  stamped env w /\ distinct_keys (rows_of (db w)) = true /\ stdout w = [] ->
  stamped env (arm w) /\ distinct_keys (rows_of (db (arm w))) = true
  /\ stdout (arm w) = [] /\ clock_reads (arm w) = clock_reads w.
Proof.
  intros (Hst & Hd & Hout). unfold arm.
  destruct (scheduler_running w); repeat split; assumption.
Qed.

Lemma start_scheduler_healthy (w : World) :
  healthy_state env w ->
  clock_advances env (clock_reads w) ->
  healthy_state env (snd (start_scheduler env w))
  /\ clock_reads (snd (start_scheduler env w)) = S (clock_reads w).
Proof.
  intros Hw Hclock.
  pose proof (start_scheduler_well_formed env w (proj1 Hw)) as Hwf'.
  rewrite start_scheduler_run in *. cbn [snd] in *.
  pose proof (initialise_healthy w Hw) as H1.
  set (w1 := set_db (initialise (db w)) w) in *.
  destruct (fetch_and_store_healthy w1 H1) as [(_ & Hst2 & Hd2 & Hout2) Hc2];
    [discriminate|exact Hclock|].
  destruct (arm_healthy _ (conj Hst2 (conj Hd2 Hout2)))
    as (Hst3 & Hd3 & Hout3 & Hc3).
  split; [split; [|split; [|split]]; assumption|].
  rewrite Hc3. exact Hc2.
Qed.

Lemma clock_read_healthy (w : World) :
  healthy_state env w -> healthy_state env (clock_read w).
Proof.
  intros (Hwf & Hst & Hd & Hout).
  split; [|split; [|split]].
  - exact Hwf.
  - unfold stamped in *. eapply Forall_impl; [|exact Hst].
    intros r (k & Hk & Hr). exists k. split; [cbn; lia|exact Hr].
  - exact Hd.
  - exact Hout.
Qed.

Lemma ensure_started_healthy (w : World) :
  healthy_state env w ->
  clock_advances env (clock_reads w) ->
  healthy_state env (snd (_ensure_scheduler_started env w))
  /\ (clock_reads (snd (_ensure_scheduler_started env w))
      <= clock_reads w + 1)%nat.
Proof.
  intros Hw Hclock.
  pose proof (ensure_started_well_formed env w (proj1 Hw)) as Hwf'.
  rewrite ensure_started_run in *. cbn [snd] in *.
  destruct (scheduler_started w) eqn:St; [split; [exact Hw|lia]|].
  destruct (start_scheduler_healthy w Hw Hclock)
    as [(_ & Hst & Hd & Hout) Hc].
  split; [|cbn; lia].
  split; [exact Hwf'|split; [|split]]; assumption.
Qed.

Lemma handle_healthy (w : World) (ev : event) :
  healthy_state env w ->
  clock_advances env (clock_reads w) ->
  healthy_state env (handle env w ev)
  /\ (clock_reads (handle env w ev) <= clock_reads w + 2)%nat.
Proof.
  intros Hw Hclock.
  destruct ev as [|r]; cbn [handle].
  - rewrite (interval_elapsed_run env w (proj1 Hw)).
    destruct (scheduler_running w) eqn:R; [|split; [exact Hw|lia]].
    destruct (fetch_and_store_healthy w Hw) as [H1 H2]; [|exact Hclock|].
    + destruct Hw as ((_ & _ & _ & Hrt) & _). now apply Hrt.
    + split; [exact H1|lia].
  - rewrite serve_state. cbv zeta.
    destruct (ensure_started_healthy w Hw Hclock) as [H Hc].
    destruct r as [|p]; [split; [exact H|lia]|].
    destruct (0 <? parse_hours p); [|split; [exact H|lia]].
    split; [now apply clock_read_healthy|cbn in *; lia].
Qed.

Lemma run_healthy (events : list event) :
  forall w,
    healthy_state env w ->
    clock_advances env (clock_reads w + 2 * List.length events) ->
    healthy_state env (run env events w).
Proof.
  unfold run. induction events as [|ev events IH]; intros w Hw Hclock; simpl;
    [exact Hw|].
  simpl in Hclock.
  destruct (handle_healthy w ev Hw) as [H1 H2].
  { eapply clock_advances_le; [|exact Hclock]. lia. }
  apply IH; [exact H1|].
  eapply clock_advances_le; [|exact Hclock]. lia.
Qed.

Lemma boot_healthy (d : Database) :
  rows_of d = [] -> healthy_state env (boot d).
Proof.
  intros Hrows. split; [|split; [|split]].
  - apply boot_well_formed.
  - unfold stamped. cbn. rewrite Hrows. constructor.
  - cbn. now rewrite Hrows.
  - reflexivity.
Qed.

Lemma process_never_fails (events : list event) (d : Database) :
  clock_advances env (1 + 2 * List.length events) ->
  rows_of d = [] ->
  healthy_state env (main env events d)
  /\ healthy_state env (imported env events d).
Proof.
  intros Hclock Hrows. unfold main, imported.
  pose proof (boot_healthy d Hrows) as Hb.
  split.
  - destruct (start_scheduler_healthy (boot d) Hb) as [H1 H2].
    { eapply clock_advances_le; [|exact Hclock]. cbn. lia. }
    apply run_healthy; [exact H1|]. rewrite H2. exact Hclock.
  - apply run_healthy; [exact Hb|].
    eapply clock_advances_le; [|exact Hclock]. cbn. lia.
Qed.

End NeverFails.

(** X18. When the API gives the documented answer, with pairwise
    distinct ids, at every request, and the clock advances over the
    readings the process can make (at most one at its start and two for
    each event), a process on a database without rows, started as a
    script or imported by a server, never prints an error whatever ticks
    and requests it meets: every run of the collector stores its whole
    batch; the keys of the table stay pairwise distinct and the state
    well formed. *)
Theorem X18_process_never_fails (env : Env) (events : list event)
    (d : Database) :
  (forall n, exists entries, documented_answer (remote env n) entries) ->
  clock_advances env (1 + 2 * List.length events) ->
  rows_of d = [] ->
  (stdout (main env events d) = []
   /\ distinct_keys (rows_of (db (main env events d))) = true
   /\ well_formed (main env events d))
  /\ (stdout (imported env events d) = []
      /\ distinct_keys (rows_of (db (imported env events d))) = true
      /\ well_formed (imported env events d)).
Proof.
  intros Hdoc Hclock Hrows.
  destruct (process_never_fails env Hdoc events d Hclock Hrows)
    as [(W1 & _ & D1 & O1) (W2 & _ & D2 & O2)].
  split; (split; [|split]); assumption.
Qed.

Lemma X18_process_never_fails_witness :
  (forall n, exists entries,
       documented_answer (remote Scenario.healthy n) entries)
  /\ clock_advances Scenario.healthy (1 + 2 * List.length Scenario.some_events)
  /\ rows_of no_database = []
  /\ stdout (main Scenario.healthy Scenario.some_events no_database) = []
  /\ stdout (imported Scenario.healthy Scenario.some_events no_database) = [].
Proof.
  assert (H1 : forall n, exists entries,
               documented_answer (remote Scenario.healthy n) entries).
  { intros n. exists [(260, "Hannovergasse", 10)].
    apply scenario_documented; lia. }
  assert (H2 : clock_advances Scenario.healthy
                 (1 + 2 * List.length Scenario.some_events))
    by (apply scenario_clock_advances; cbn; lia).
  assert (H3 : rows_of no_database = []) by reflexivity.
  repeat (split; [assumption|]).
  destruct (X18_process_never_fails Scenario.healthy Scenario.some_events
              no_database H1 H2 H3) as [(O1 & _) (O2 & _)].
  split; assumption.
Defined.

(* ================================================================== *)
(** ** Leaving the process *)

(** X19. The exit handler never raises and leaves the scheduler
    stopped; it touches neither the database nor what was sent or
    printed.  Running it again changes nothing, and a trigger that fires
    after it makes no request. *)
Theorem X19_shutdown_stops_collecting (env : Env) (w : World) :
  fst (_shutdown_scheduler w) = Ok tt
  /\ scheduler_running (snd (_shutdown_scheduler w)) = false
  /\ _shutdown_scheduler (snd (_shutdown_scheduler w))
     = (Ok tt, snd (_shutdown_scheduler w))
  /\ interval_elapsed env (snd (_shutdown_scheduler w))
     = (Ok tt, snd (_shutdown_scheduler w))
  /\ db (snd (_shutdown_scheduler w)) = db w
  /\ requests_sent (snd (_shutdown_scheduler w)) = requests_sent w
  /\ clock_reads (snd (_shutdown_scheduler w)) = clock_reads w
  /\ stdout (snd (_shutdown_scheduler w)) = stdout w
  /\ scheduler_started (snd (_shutdown_scheduler w)) = scheduler_started w.
Proof.
  unfold _shutdown_scheduler, interval_elapsed, bind, gets, modify, ret.
  destruct (scheduler_running w) eqn:R; cbn; rewrite ?R; cbn;
    repeat split; reflexivity.
Qed.
